(** * TV-Webcam-Link: the motion-detection hook [useMotionDetection]

    A shallow embedding of [hooks/useMotionDetection.ts]: the per-frame
    change estimator, the motion state machine with its one-second silence
    timer, and the camera lifecycle ([setup] / [cleanup]).

    JavaScript numbers are IEEE 754 binary64 values; they are modelled by
    the [spec_float] operations of the standard library at precision 53
    and maximal exponent 1024, so every arithmetic step below rounds the
    way the engine does.  The browser (animation frames, timers, camera
    streams, suspended [await]s) is an explicit part of the state, and the
    three callbacks of the hook are recorded in a call log. *)

From Stdlib Require Import String.
From Stdlib Require Import ZArith List Bool Lia QArith Qabs PeanoNat.
From Stdlib Require Import Floats.SpecFloat.
Import ListNotations.

Local Open Scope Z_scope.

(* ------------------------------------------------------------------ *)
(** ** JavaScript numbers *)

Module Num.

Definition prec : Z := 53.
Definition emax : Z := 1024.

Definition num : Type := spec_float.

Definition NaN : num := S754_nan.

(** The Number value of a mathematical integer (nearest binary64). *)
Definition of_Z (z : Z) : num := binary_normalize prec emax z 0 false.

Definition add : num -> num -> num := SFadd prec emax.
Definition sub : num -> num -> num := SFsub prec emax.
Definition mul : num -> num -> num := SFmul prec emax.
Definition div : num -> num -> num := SFdiv prec emax.
Definition abs : num -> num := SFabs.

(** [x > y]; false as soon as one side is NaN. *)
Definition gt (x y : num) : bool := SFltb y x.

(** The literal [0.001]: the binary64 nearest to 1/1000, which is what
    the correctly rounded quotient 1/1000 is. *)
Definition lit_0_001 : num := div (of_Z 1) (of_Z 1000).

(** Exact rational value of a finite number. *)
Definition to_Q (x : num) : option Q :=
  match x with
  | S754_zero _ => Some 0%Q
  | S754_finite s m e =>
      let v := match e with
               | Zneg p => (Zpos m # (2 ^ p))%Q
               | _ => inject_Z (Zpos m * 2 ^ e)
               end in
      Some (if s then Qopp v else v)
  | S754_infinity _ | S754_nan => None
  end.

End Num.

Import Num.

(* ------------------------------------------------------------------ *)
(** ** Frames and pixel buffers *)

(** [ImageData]: [data] holds 4 bytes (R, G, B, A, each 0..255) per pixel. *)
Record ImageData : Type := mkImageData {
  width : Z;
  height : Z;
  data : list Z }.

(** What one tick reads from the video element and the canvas. *)
Record Frame : Type := mkFrame {
  paused : bool;
  ended : bool;
  readyState : Z;
  has2d : bool;            (* [canvas.getContext('2d', ...)] is not null *)
  videoWidth : Z;
  videoHeight : Z;
  pixels : list Z }.       (* what [getImageData(0, 0, width, height)] reads *)

Definition HAVE_ENOUGH_DATA : Z := 4.

(** [ctx.getImageData(0, 0, width, height)] after drawing the frame. *)
Definition getImageData (f : Frame) : ImageData :=
  mkImageData (videoWidth f) (videoHeight f) (pixels f).

(** [arr[i]] on a typed array: a byte, or [undefined] out of range, which
    arithmetic turns into NaN. *)
Definition read (arr : list Z) (i : nat) : num :=
  match nth_error arr i with
  | Some b => of_Z b
  | None => NaN
  end.

(* ------------------------------------------------------------------ *)
(** ** Change estimator and decision rule *)

(** [50 - ((sensitivityRef.current - 1) / 99) * 45] *)
Definition pixelDiffThreshold (sensitivity : num) : num :=
  sub (of_Z 50) (mul (div (sub sensitivity (of_Z 1)) (of_Z 99)) (of_Z 45)).

(** [(arr[i] + arr[i + 1] + arr[i + 2]) / 3] *)
Definition avg (arr : list Z) (i : nat) : num :=
  div (add (add (read arr i) (read arr (i + 1))) (read arr (i + 2))) (of_Z 3).

(** [Math.abs(avg1 - avg2)] *)
Definition diff (lastData currentData : list Z) (i : nat) : num :=
  abs (sub (avg lastData i) (avg currentData i)).

Definition pixel_changed (thr : num) (lastData currentData : list Z) (i : nat) : bool :=
  gt (diff lastData currentData i) thr.

Definition resolution : nat := 4.

(** The loop [for (let i = 0; i < currentData.length; i += 4 * resolution)].
    [changedPixels] only takes integer values below 2^53, where [++] is
    exact, so the counter is kept as a natural number.  [fuel] bounds the
    number of iterations; [countChangedPixels] supplies enough of it. *)
Fixpoint scan (fuel : nat) (thr : num) (lastData currentData : list Z)
              (i changedPixels : nat) : nat :=
  match fuel with
  | O => changedPixels
  | S fuel' =>
      if (i <? length currentData)%nat then
        scan fuel' thr lastData currentData (i + 4 * resolution)
             (if pixel_changed thr lastData currentData i
              then S changedPixels else changedPixels)
      else changedPixels
  end.

Definition countChangedPixels (thr : num) (lastData currentData : list Z) : nat :=
  scan (length currentData) thr lastData currentData 0 0.

(** [totalPixelsChecked * 0.001] with
    [totalPixelsChecked = (width * height) / resolution]. *)
Definition motionPixelThreshold (w h : Z) : num :=
  mul (div (mul (of_Z w) (of_Z h)) (of_Z (Z.of_nat resolution))) lit_0_001.

(** [changedPixels > motionPixelThreshold] *)
Definition motion_present (changedPixels : nat) (w h : Z) : bool :=
  gt (of_Z (Z.of_nat changedPixels)) (motionPixelThreshold w h).

(** The classification of a frame against the retained one, as the tick
    computes it. *)
Definition classify (sensitivity : num) (last : ImageData) (f : Frame) : bool :=
  motion_present
    (countChangedPixels (pixelDiffThreshold sensitivity) (data last) (pixels f))
    (videoWidth f) (videoHeight f).

(** Number of loop iterations over a buffer of [len] bytes. *)
Definition sampled (len : nat) : nat := ((len + 15) / 16)%nat.

(** [(width * height) / resolution] *)
Definition totalPixelsChecked (w h : Z) : num :=
  div (mul (of_Z w) (of_Z h)) (of_Z (Z.of_nat resolution)).

(* ------------------------------------------------------------------ *)
(** ** The hook's state and the browser around it *)

(** What a rejected promise carries.  A [DOMException] is an instance of
    [Error]; [NotAnError] stands for any thrown value that is not. *)
Inductive Thrown : Type :=
| DOMException (name message : string)
| OtherError (name message : string)
| NotAnError.

Inductive Callback : Type :=
| OnMotionStart
| OnMotionEnd
| OnError (err : Thrown).

Record Timer : Type := mkTimer {
  tid : nat;
  set_at : Z;
  delay : Z }.

Inductive Await : Type :=
| AwaitGetUserMedia
| AwaitPlay.

(** The [useState] cell and the [useRef] cells of the hook. *)
Record Hook : Type := mkHook {
  stream : option nat;
  videoRef : option nat;
  canvasRef : option (Z * Z);
  streamRef : option nat;
  requestRef : option nat;
  lastImageDataRef : option ImageData;
  motionTimeoutRef : option nat;
  isDetectingMotionRef : bool;
  sensitivityRef : num }.

(** The browser: clock (ms), the next handle it hands out, the pending
    animation-frame callbacks (all of them [detectMotionLoop]), the pending
    timers (all of them the motion-end closure), the camera streams whose
    tracks are live, the [setup] calls suspended at an [await], and the log
    of callback invocations. *)
Record Browser : Type := mkBrowser {
  now : Z;
  fresh : nat;
  animationFrames : list nat;
  timers : list Timer;
  liveStreams : list nat;
  suspended : list (nat * Await);
  calls : list Callback }.

Record World : Type := mkWorld {
  hook : Hook;
  browser : Browser }.

Definition set_stream v (h : Hook) : Hook :=
  mkHook v (videoRef h) (canvasRef h) (streamRef h) (requestRef h)
         (lastImageDataRef h) (motionTimeoutRef h) (isDetectingMotionRef h) (sensitivityRef h).
Definition set_videoRef v (h : Hook) : Hook :=
  mkHook (stream h) v (canvasRef h) (streamRef h) (requestRef h)
         (lastImageDataRef h) (motionTimeoutRef h) (isDetectingMotionRef h) (sensitivityRef h).
Definition set_canvasRef v (h : Hook) : Hook :=
  mkHook (stream h) (videoRef h) v (streamRef h) (requestRef h)
         (lastImageDataRef h) (motionTimeoutRef h) (isDetectingMotionRef h) (sensitivityRef h).
Definition set_streamRef v (h : Hook) : Hook :=
  mkHook (stream h) (videoRef h) (canvasRef h) v (requestRef h)
         (lastImageDataRef h) (motionTimeoutRef h) (isDetectingMotionRef h) (sensitivityRef h).
Definition set_requestRef v (h : Hook) : Hook :=
  mkHook (stream h) (videoRef h) (canvasRef h) (streamRef h) v
         (lastImageDataRef h) (motionTimeoutRef h) (isDetectingMotionRef h) (sensitivityRef h).
Definition set_lastImageDataRef v (h : Hook) : Hook :=
  mkHook (stream h) (videoRef h) (canvasRef h) (streamRef h) (requestRef h)
         v (motionTimeoutRef h) (isDetectingMotionRef h) (sensitivityRef h).
Definition set_motionTimeoutRef v (h : Hook) : Hook :=
  mkHook (stream h) (videoRef h) (canvasRef h) (streamRef h) (requestRef h)
         (lastImageDataRef h) v (isDetectingMotionRef h) (sensitivityRef h).
Definition set_isDetectingMotionRef v (h : Hook) : Hook :=
  mkHook (stream h) (videoRef h) (canvasRef h) (streamRef h) (requestRef h)
         (lastImageDataRef h) (motionTimeoutRef h) v (sensitivityRef h).
Definition set_sensitivityRef v (h : Hook) : Hook :=
  mkHook (stream h) (videoRef h) (canvasRef h) (streamRef h) (requestRef h)
         (lastImageDataRef h) (motionTimeoutRef h) (isDetectingMotionRef h) v.

Definition set_now v (b : Browser) : Browser :=
  mkBrowser v (fresh b) (animationFrames b) (timers b) (liveStreams b) (suspended b) (calls b).
Definition set_fresh v (b : Browser) : Browser :=
  mkBrowser (now b) v (animationFrames b) (timers b) (liveStreams b) (suspended b) (calls b).
Definition set_animationFrames v (b : Browser) : Browser :=
  mkBrowser (now b) (fresh b) v (timers b) (liveStreams b) (suspended b) (calls b).
Definition set_timers v (b : Browser) : Browser :=
  mkBrowser (now b) (fresh b) (animationFrames b) v (liveStreams b) (suspended b) (calls b).
Definition set_liveStreams v (b : Browser) : Browser :=
  mkBrowser (now b) (fresh b) (animationFrames b) (timers b) v (suspended b) (calls b).
Definition set_suspended v (b : Browser) : Browser :=
  mkBrowser (now b) (fresh b) (animationFrames b) (timers b) (liveStreams b) v (calls b).
Definition set_calls v (b : Browser) : Browser :=
  mkBrowser (now b) (fresh b) (animationFrames b) (timers b) (liveStreams b) (suspended b) v.

Definition on_hook (f : Hook -> Hook) (w : World) : World :=
  mkWorld (f (hook w)) (browser w).
Definition on_browser (f : Browser -> Browser) (w : World) : World :=
  mkWorld (hook w) (f (browser w)).

(** Browser primitives. *)

Definition without (id : nat) (l : list nat) : list nat :=
  filter (fun x => negb (Nat.eqb x id)) l.

Definition requestAnimationFrame (b : Browser) : nat * Browser :=
  (fresh b,
   set_fresh (S (fresh b)) (set_animationFrames (animationFrames b ++ [fresh b]) b)).

Definition cancelAnimationFrame (id : nat) (b : Browser) : Browser :=
  set_animationFrames (without id (animationFrames b)) b.

Definition setTimeout (ms : Z) (b : Browser) : nat * Browser :=
  (fresh b,
   set_fresh (S (fresh b)) (set_timers (timers b ++ [mkTimer (fresh b) (now b) ms]) b)).

Definition clearTimeout (id : nat) (b : Browser) : Browser :=
  set_timers (filter (fun t => negb (Nat.eqb (tid t) id)) (timers b)) b.

(** [stream.getTracks().forEach(track => track.stop())] *)
Definition stopTracks (s : nat) (b : Browser) : Browser :=
  set_liveStreams (without s (liveStreams b)) b.

(** [document.createElement(...)]: a new element, named by a fresh handle. *)
Definition createElement (b : Browser) : nat * Browser :=
  (fresh b, set_fresh (S (fresh b)) b).

Definition invoke (c : Callback) (w : World) : World :=
  on_browser (fun b => set_calls (calls b ++ [c]) b) w.

(** [requestRef.current = requestAnimationFrame(detectMotionLoop)] *)
Definition reschedule (w : World) : World :=
  let '(id, b) := requestAnimationFrame (browser w) in
  mkWorld (set_requestRef (Some id) (hook w)) b.

(** The closure handed to [setTimeout]. *)
Definition onSilence (w : World) : World :=
  invoke OnMotionEnd (on_hook (set_isDetectingMotionRef false) w).

(** The body of [if (changedPixels > motionPixelThreshold) { ... }]. *)
Definition onMotion (w : World) : World :=
  let w :=
    if negb (isDetectingMotionRef (hook w))
    then invoke OnMotionStart (on_hook (set_isDetectingMotionRef true) w)
    else w in
  let w :=
    match motionTimeoutRef (hook w) with
    | Some (S _ as id) => on_browser (clearTimeout id) w
    | _ => w                                   (* null, or a falsy handle *)
    end in
  let '(id, b) := setTimeout 1000 (browser w) in
  mkWorld (set_motionTimeoutRef (Some id) (hook w)) b.

(** One tick of [detectMotionLoop]; [f] is what the tick reads from the
    video element. *)
Definition detectMotionLoop (f : Frame) (w : World) : World :=
  match videoRef (hook w), canvasRef (hook w) with
  | Some _, Some _ =>
      if paused f || ended f || (readyState f <? HAVE_ENOUGH_DATA) then reschedule w
      else if negb (has2d f) then reschedule w
      else if (videoWidth f =? 0) || (videoHeight f =? 0) then reschedule w
      else
        let w := on_hook (set_canvasRef (Some (videoWidth f, videoHeight f))) w in
        let currentImageData := getImageData f in
        match lastImageDataRef (hook w) with
        | None =>
            reschedule (on_hook (set_lastImageDataRef (Some currentImageData)) w)
        | Some lastImageData =>
            let threshold := pixelDiffThreshold (sensitivityRef (hook w)) in
            let changedPixels :=
              countChangedPixels threshold (data lastImageData) (data currentImageData) in
            let w := on_hook (set_lastImageDataRef (Some currentImageData)) w in
            let w :=
              if motion_present changedPixels (videoWidth f) (videoHeight f)
              then onMotion w else w in
            reschedule w
        end
  | _, _ => reschedule w
  end.

Definition cleanup (w : World) : World :=
  let w :=
    match requestRef (hook w) with
    | Some id =>
        on_hook (set_requestRef None) (on_browser (cancelAnimationFrame id) w)
    | None => w
    end in
  let w :=
    match motionTimeoutRef (hook w) with
    | Some (S _ as id) =>
        on_hook (set_motionTimeoutRef None) (on_browser (clearTimeout id) w)
    | _ => w
    end in
  let w :=
    match streamRef (hook w) with
    | Some s => on_hook (set_streamRef None) (on_browser (stopTracks s) w)
    | None => w
    end in
  let w :=
    match videoRef (hook w) with
    | Some _ => on_hook (set_videoRef None) w     (* after [srcObject = null] *)
    | None => w
    end in
  let w := on_hook (set_stream None) w in
  let w := on_hook (set_lastImageDataRef None) w in
  let w := on_hook (set_isDetectingMotionRef false) w in
  on_hook (set_canvasRef None) w.

(** [setup] up to its first [await]: the teardown, then the camera request,
    on which the call is suspended under a fresh key. *)
Definition setup (w : World) : World :=
  let w := cleanup w in
  on_browser (fun b =>
    set_fresh (S (fresh b))
      (set_suspended (suspended b ++ [(fresh b, AwaitGetUserMedia)]) b)) w.

(** [setup] from the resolution of [getUserMedia] to [await videoElement.play()];
    [s] is the stream the browser has just opened. *)
Definition setup_acquired (k s : nat) (w : World) : World :=
  let w := on_hook (set_stream (Some s)) w in
  let w := on_hook (set_streamRef (Some s)) w in
  let '(v, b) := createElement (browser w) in
  let w := mkWorld (set_videoRef (Some v) (hook w)) b in
  let '(_, b) := createElement (browser w) in
  let w := mkWorld (set_canvasRef (Some (300, 150)) (hook w)) b in
  on_browser (fun b => set_suspended (suspended b ++ [(k, AwaitPlay)]) b) w.

(** [setup] after [play()] resolved. *)
Definition setup_playing (w : World) : World := reschedule w.

Definition is_abort (err : Thrown) : bool :=
  match err with
  | DOMException name _ => String.eqb name "AbortError"
  | _ => false
  end.

Definition unknown_error : Thrown :=
  OtherError "Error" "An unknown error occurred while accessing the camera.".

(** The [catch] block of [setup]. *)
Definition setup_catch (err : Thrown) (w : World) : World :=
  if is_abort err then w
  else
    match err with
    | DOMException _ _ | OtherError _ _ => invoke (OnError err) w
    | NotAnError => invoke (OnError unknown_error) w
    end.

(** The effect [if (enabled) setup() else cleanup()]. *)
Definition effect (enabled : bool) (w : World) : World :=
  if enabled then setup w else cleanup w.

(* ------------------------------------------------------------------ *)
(** ** Events *)

Inductive Event : Type :=
| Elapse (dt : Z)
| AnimationFrame (id : nat) (f : Frame)
| Timeout (id : nat)
| GetUserMediaSettled (k : nat) (r : option Thrown)   (* [None]: resolved *)
| PlaySettled (k : nat) (r : option Thrown)
| Enable
| Disable
| SetSensitivity (s : num).

Definition await_eqb (a b : Await) : bool :=
  match a, b with
  | AwaitGetUserMedia, AwaitGetUserMedia | AwaitPlay, AwaitPlay => true
  | _, _ => false
  end.

Definition is_suspended (k : nat) (a : Await) (b : Browser) : bool :=
  existsb (fun p => Nat.eqb (fst p) k && await_eqb (snd p) a) (suspended b).

Definition resume (k : nat) (b : Browser) : Browser :=
  set_suspended (filter (fun p => negb (Nat.eqb (fst p) k)) (suspended b)) b.

Definition due (id : nat) (b : Browser) : bool :=
  existsb (fun t => Nat.eqb (tid t) id && (set_at t + delay t <=? now b)) (timers b).

(** The browser opens a camera stream. *)
Definition openStream (b : Browser) : nat * Browser :=
  (fresh b, set_fresh (S (fresh b)) (set_liveStreams (liveStreams b ++ [fresh b]) b)).

Definition step (ev : Event) (w : World) : option World :=
  match ev with
  | Elapse dt =>
      if 0 <=? dt then Some (on_browser (fun b => set_now (now b + dt) b) w) else None
  | AnimationFrame id f =>
      if existsb (Nat.eqb id) (animationFrames (browser w))
      then Some (detectMotionLoop f (on_browser (cancelAnimationFrame id) w))
      else None
  | Timeout id =>
      if due id (browser w)
      then Some (onSilence (on_browser (clearTimeout id) w))
      else None
  | GetUserMediaSettled k r =>
      if is_suspended k AwaitGetUserMedia (browser w) then
        let w := on_browser (resume k) w in
        match r with
        | None =>
            let '(s, b) := openStream (browser w) in
            Some (setup_acquired k s (mkWorld (hook w) b))
        | Some err => Some (setup_catch err w)
        end
      else None
  | PlaySettled k r =>
      if is_suspended k AwaitPlay (browser w) then
        let w := on_browser (resume k) w in
        match r with
        | None => Some (setup_playing w)
        | Some err => Some (setup_catch err w)
        end
      else None
  | Enable => Some (setup w)
  | Disable => Some (cleanup w)
  | SetSensitivity s => Some (on_hook (set_sensitivityRef s) w)
  end.

Fixpoint exec (es : list Event) (w : World) : option World :=
  match es with
  | [] => Some w
  | ev :: es' =>
      match step ev w with
      | Some w' => exec es' w'
      | None => None
      end
  end.

(** The hook as first rendered, before its effect runs; [sensitivity] is the
    prop (default 50). *)
Definition initial (sensitivity : num) : World :=
  mkWorld (mkHook None None None None None None None false sensitivity)
          (mkBrowser 0 1 [] [] [] [] []).

(* ------------------------------------------------------------------ *)
(** ** Notions used to state the properties *)

(** The tick gets past its readiness guards and captures the frame. *)
Definition ready (h : Hook) (f : Frame) : bool :=
  match videoRef h, canvasRef h with
  | Some _, Some _ =>
      negb (paused f || ended f || (readyState f <? HAVE_ENOUGH_DATA))
      && has2d f
      && negb ((videoWidth f =? 0) || (videoHeight f =? 0))
  | _, _ => false
  end.

(** The state once the frame is captured and retained. *)
Definition store (f : Frame) (w : World) : World :=
  on_hook (set_lastImageDataRef (Some (getImageData f)))
          (on_hook (set_canvasRef (Some (videoWidth f, videoHeight f))) w).

(** The tick compares the frame with a retained one and classifies it
    "motion present". *)
Definition motion_tick (w : World) (f : Frame) : bool :=
  ready (hook w) f &&
  match lastImageDataRef (hook w) with
  | Some last => classify (sensitivityRef (hook w)) last f
  | None => false
  end.

(** The spec's formula [50 − ((s − 1) / 99) × 45], over binary64 as the
    program's numbers are, and over the rationals. *)
Definition threshold_spec (s : Z) : num :=
  sub (of_Z 50) (mul (div (sub (of_Z s) (of_Z 1)) (of_Z 99)) (of_Z 45)).

Definition threshold_exact (s : Z) : Q :=
  (50 - ((inject_Z s - 1) / 99) * 45)%Q.

(** The binary64 threshold is finite and within 2^-47 of the rational one. *)
Definition threshold_close (s : Z) : bool :=
  match to_Q (pixelDiffThreshold (of_Z s)) with
  | Some q => Qle_bool (Qabs (q - threshold_exact s)) (1 # 2 ^ 47)
  | None => false
  end.

Definition sensitivities : list Z := map Z.of_nat (seq 1 100).

(** A number is zero, or positive with last-place exponent at most [E] and
    magnitude (bit length plus exponent) at most [M]. *)
Definition below (E M : Z) (x : num) : Prop :=
  x = S754_zero false \/
  exists m e, x = S754_finite false m e /\ e <= E /\ Zdigits2 (Zpos m) + e <= M.

(** At most one timer is pending; it is the one [motionTimeoutRef] names. *)
Definition timers_ok (w : World) : Prop :=
  timers (browser w) = [] \/
  exists t, timers (browser w) = [t] /\
            motionTimeoutRef (hook w) = Some (tid t) /\
            tid t <> 0%nat /\ (tid t < fresh (browser w))%nat /\ delay t = 1000.

(** Invariant of every reachable state. *)
Definition Inv (w : World) : Prop :=
  (0 < fresh (browser w))%nat /\
  timers_ok w /\
  (isDetectingMotionRef (hook w) = true -> timers (browser w) <> []) /\
  (forall s, In s (liveStreams (browser w)) -> (s < fresh (browser w))%nat) /\
  motionTimeoutRef (hook w) <> Some 0%nat.

(** Events of the running engine: everything but the lifecycle calls. *)
Definition running_event (ev : Event) : bool :=
  match ev with
  | Enable | Disable => false
  | _ => true
  end.

(** Events during which nothing is classified "motion present". *)
Definition quiet (ev : Event) (w : World) : bool :=
  match ev with
  | Elapse _ | SetSensitivity _ => true
  | AnimationFrame _ f => negb (motion_tick w f)
  | _ => false
  end.

Fixpoint exec_quiet (es : list Event) (w : World) : option World :=
  match es with
  | [] => Some w
  | ev :: es' =>
      if quiet ev w then
        match step ev w with
        | Some w' => exec_quiet es' w'
        | None => None
        end
      else None
  end.

(** Events of a run in which nothing is torn down and no promise rejects. *)
Definition smooth (ev : Event) : bool :=
  match ev with
  | Enable | Disable => false
  | GetUserMediaSettled _ (Some _) | PlaySettled _ (Some _) => false
  | _ => true
  end.

(** Enabled and running: one live session, one pending tick, no suspended
    [setup]. *)
Definition Running (w : World) : Prop :=
  suspended (browser w) = [] /\
  exists s r,
    streamRef (hook w) = Some s /\ stream (hook w) = Some s /\
    liveStreams (browser w) = [s] /\
    requestRef (hook w) = Some r /\ animationFrames (browser w) = [r].

(** The phases of a single [setup] after its teardown; [s0] is a stream that
    was stopped by the teardown. *)
Definition Acquiring (s0 : nat) (w : World) : Prop :=
  (s0 < fresh (browser w))%nat /\
  (exists k, suspended (browser w) = [(k, AwaitGetUserMedia)]) /\
  liveStreams (browser w) = [] /\ animationFrames (browser w) = [] /\
  timers (browser w) = [] /\ streamRef (hook w) = None.

Definition Starting (s0 : nat) (w : World) : Prop :=
  (exists k, suspended (browser w) = [(k, AwaitPlay)]) /\
  animationFrames (browser w) = [] /\ timers (browser w) = [] /\
  exists s, s <> s0 /\ streamRef (hook w) = Some s /\ stream (hook w) = Some s /\
            liveStreams (browser w) = [s].

Definition Restarted (s0 : nat) (w : World) : Prop :=
  Running w /\ streamRef (hook w) <> Some s0.

(** Nothing is pending in the browser on behalf of the hook. *)
Definition Dead (w : World) : Prop :=
  animationFrames (browser w) = [] /\ timers (browser w) = [] /\
  suspended (browser w) = [].

(** No [setup] is suspended and the one tick request, if any, is the one
    [requestRef] names. *)
Definition Settled (w : World) : Prop :=
  suspended (browser w) = [] /\
  forall r, In r (animationFrames (browser w)) -> requestRef (hook w) = Some r.

(** Every event but [Enable]. *)
Definition no_enable (ev : Event) : bool :=
  match ev with
  | Enable => false
  | _ => true
  end.

Definition is_start (c : Callback) : bool :=
  match c with OnMotionStart => true | _ => false end.
Definition is_end (c : Callback) : bool :=
  match c with OnMotionEnd => true | _ => false end.

Definition starts (w : World) : nat := length (filter is_start (calls (browser w))).
Definition ends (w : World) : nat := length (filter is_end (calls (browser w))).

(** Every motion-end has its motion-start, and [d] starts besides the
    current one have none. *)
Definition Balanced (d : nat) (w : World) : Prop :=
  (timers (browser w) <> [] -> isDetectingMotionRef (hook w) = true) /\
  (ends w + (if isDetectingMotionRef (hook w) then 1 else 0) + d <= starts w)%nat.

(** The error object handed to [onError]. *)
Definition reported (err : Thrown) : Thrown :=
  match err with
  | NotAnError => unknown_error
  | _ => err
  end.

Definition message (err : Thrown) : string :=
  match err with
  | DOMException _ m | OtherError _ m => m
  | NotAnError => EmptyString
  end.

(** Sample frames and runs. *)

Definition frame (w h : Z) (px : list Z) : Frame := mkFrame false false 4 true w h px.

Definition black_1x1 : Frame := frame 1 1 [0; 0; 0; 255].
Definition white_1x1 : Frame := frame 1 1 [255; 255; 255; 255].
Definition black_2x1 : Frame := frame 2 1 [0; 0; 0; 255; 0; 0; 0; 255].
Definition black_2x2 : Frame :=
  frame 2 2 [0; 0; 0; 255; 0; 0; 0; 255; 0; 0; 0; 255; 0; 0; 0; 255].
Definition white_2x2 : Frame :=
  frame 2 2 [255; 255; 255; 255; 255; 255; 255; 255;
             255; 255; 255; 255; 255; 255; 255; 255].

Definition after (es : list Event) : World :=
  match exec es (initial (of_Z 50)) with
  | Some w => w
  | None => initial (of_Z 50)
  end.

(** Enable, camera granted, playback started: handles 1 (the [setup] call),
    2 (the stream), 3 and 4 (the elements), 5 (the first tick request). *)
Definition start_up : list Event :=
  [Enable; GetUserMediaSettled 1 None; PlaySettled 1 None].

Definition started : World := after start_up.

(** One frame retained, state Idle. *)
Definition watching : World := after (start_up ++ [AnimationFrame 5 black_2x2]).

(** One 2x1 frame retained: the camera is about to change resolution. *)
Definition shrunk : World := after (start_up ++ [AnimationFrame 5 black_2x1]).

(** Motion seen once: state Active, timer 7 pending. *)
Definition active : World :=
  after (start_up ++ [AnimationFrame 5 black_2x2; AnimationFrame 6 white_2x2]).

(** A second without motion after that: one still tick, 1000 ms in all. *)
Definition quiet_second : list Event :=
  [Elapse 400; AnimationFrame 8 white_2x2; Elapse 600].

Definition silent : World :=
  after (start_up ++ [AnimationFrame 5 black_2x2; AnimationFrame 6 white_2x2]
         ++ quiet_second).

(** The silence timer has fired: state Idle again. *)
Definition idle_again : World :=
  after (start_up ++ [AnimationFrame 5 black_2x2; AnimationFrame 6 white_2x2]
         ++ quiet_second ++ [Timeout 7]).

(** Enable again while running: handles 6 (the second [setup] call),
    7 (its stream), 8 and 9 (its elements), 10 (its first tick request). *)
Definition re_enable : list Event :=
  [GetUserMediaSettled 6 None; PlaySettled 6 None].

Definition restarted : World := after (start_up ++ Enable :: re_enable).

(** Disable while the camera request of the first [setup] is pending; the
    request is then granted, playback starts and two frames arrive. *)
Definition granted_late : list Event :=
  [GetUserMediaSettled 1 None; PlaySettled 1 None;
   AnimationFrame 5 black_2x2; AnimationFrame 6 white_2x2].

Definition disabled_early : World := after [Enable; Disable].

Definition haunted : World := after ([Enable; Disable] ++ granted_late).

(** Enable twice in a row, the first camera request still pending; both
    requests are then granted and both playbacks start.  Handles: 1 and 2
    (the two [setup] calls), 3 and 6 (their streams), 9 and 10 (their
    first tick requests). *)
Definition enabled_twice : World := after [Enable; Enable].

Definition both_granted : list Event :=
  [GetUserMediaSettled 1 None; GetUserMediaSettled 2 None;
   PlaySettled 1 None; PlaySettled 2 None].

Definition doubled : World := after ([Enable; Enable] ++ both_granted).




(** The camera request is refused. *)
Definition denied : Thrown :=
  DOMException "NotAllowedError" "Permission denied".

(* ------------------------------------------------------------------ *)
(** ** The effect that drives the hook *)

(** React runs the cleanup the previous effect returned ([return cleanup])
    and then the effect again, whenever [enabled] changes. *)
Definition rerender (enabled : bool) (w : World) : World :=
  effect enabled (cleanup w).

(** No [setup] is suspended, and the only tick request and the only live
    stream, if any, are the ones the refs name. *)
Definition Clean (w : World) : Prop :=
  Settled w /\
  forall s, In s (liveStreams (browser w)) -> streamRef (hook w) = Some s.

(** The stream the hook returns is the one it holds, and its tracks are
    live. *)
Definition Exposed (w : World) : Prop :=
  stream (hook w) = streamRef (hook w) /\
  forall s, streamRef (hook w) = Some s -> In s (liveStreams (browser w)).

(** Motion-starts not yet answered by a motion-end, the current Active
    phase not counted. *)
Definition surplus (w : World) : Z :=
  Z.of_nat (starts w) - Z.of_nat (ends w)
  - (if isDetectingMotionRef (hook w) then 1 else 0).

(** [x <= y] on numbers. *)
Definition num_le (x y : num) : bool := SFleb x y.

Definition positive_finite (x : num) : bool :=
  match x with
  | S754_finite false _ _ => true
  | _ => false
  end.

(** The threshold at [s2] is not above the one at [s1] when [s1 <= s2]. *)
Definition threshold_pair (s1 s2 : Z) : bool :=
  if s1 <=? s2
  then num_le (pixelDiffThreshold (of_Z s2)) (pixelDiffThreshold (of_Z s1))
  else true.

(** The threshold at [s1] is positive, lies between 5 and 50 and is not
    below the threshold at any higher sensitivity up to 100. *)
Definition threshold_ok (s1 : Z) : bool :=
  positive_finite (pixelDiffThreshold (of_Z s1))
  && num_le (of_Z 5) (pixelDiffThreshold (of_Z s1))
  && num_le (pixelDiffThreshold (of_Z s1)) (of_Z 50)
  && forallb (threshold_pair s1) sensitivities.

(* ------------------------------------------------------------------ *)
(** ** The application around the hook ([App.tsx]) *)

(** A [File], by its name. *)
Definition File : Type := string.

Record AppConfig : Type := mkAppConfig {
  videoObjectUrl : nat;        (* the object URL, named by its handle *)
  logoUrl : string;
  sensitivity : num }.

(** The three [useState] cells of [App], and the object URLs the browser
    holds for the document. *)
Record App : Type := mkApp {
  config : option AppConfig;
  isMotionActive : bool;
  error : option string;
  objectUrls : list nat;
  nextUrl : nat }.

Definition set_config v (a : App) : App :=
  mkApp v (isMotionActive a) (error a) (objectUrls a) (nextUrl a).
Definition set_isMotionActive v (a : App) : App :=
  mkApp (config a) v (error a) (objectUrls a) (nextUrl a).
Definition set_error v (a : App) : App :=
  mkApp (config a) (isMotionActive a) v (objectUrls a) (nextUrl a).

(** [URL.revokeObjectURL] and [URL.createObjectURL]. *)
Definition revokeObjectURL (u : nat) (a : App) : App :=
  mkApp (config a) (isMotionActive a) (error a) (without u (objectUrls a)) (nextUrl a).

Definition createObjectURL (file : File) (a : App) : nat * App :=
  (nextUrl a,
   mkApp (config a) (isMotionActive a) (error a)
         (objectUrls a ++ [nextUrl a]) (S (nextUrl a))).

(** The cleanup of the effect on [[config]]: it revokes the URL of the
    config it was created with. *)
Definition revoke_config (c : option AppConfig) (a : App) : App :=
  match c with
  | Some cfg => revokeObjectURL (videoObjectUrl cfg) a
  | None => a
  end.

(** [setConfig(c)]: the state changes, so React runs the cleanup of the
    effect of the previous render, which closed over the previous config. *)
Definition setConfig (c : option AppConfig) (a : App) : App :=
  set_config c (revoke_config (config a) a).

Definition handleMotionStart (a : App) : App := set_isMotionActive true a.
Definition handleMotionEnd (a : App) : App := set_isMotionActive false a.

(** [setError(err.message)] *)
Definition handleCameraError (err : Thrown) (a : App) : App :=
  set_error (Some (message err)) a.

(** [handleSetupComplete]; the fullscreen request at its end touches none
    of this state. *)
Definition handleSetupComplete (file : File) (logo : string) (s : num) (a : App) : App :=
  let a := set_error None a in
  let a := revoke_config (config a) a in
  let '(newVideoObjectUrl, a) := createObjectURL file a in
  setConfig (Some (mkAppConfig newVideoObjectUrl logo s)) a.

Definition handleRetrySetup (a : App) : App :=
  set_error None (setConfig None a).

(** The props handed to the hook: [enabled: !!config] and
    [sensitivity: config?.sensitivity], 50 when undefined. *)
Definition enabled_prop (a : App) : bool :=
  match config a with Some _ => true | None => false end.

Definition sensitivity_prop (a : App) : num :=
  match config a with Some c => sensitivity c | None => of_Z 50 end.

(** What [App] renders, given the hook's [stream]. *)
Inductive Screen : Type :=
| ErrorScreen (msg : string)
| SetupForm
| MotionScreen (stream : nat) (logo : string)
| IdleScreen (videoUrl : nat).

Definition render (a : App) (hookStream : option nat) : Screen :=
  match error a with
  | Some (String _ _ as msg) => ErrorScreen msg
  | _ =>                                (* [null], or the empty string *)
      match config a with
      | None => SetupForm
      | Some c =>
          match isMotionActive a, hookStream with
          | true, Some s => MotionScreen s (logoUrl c)
          | _, _ => IdleScreen (videoObjectUrl c)
          end
      end
  end.

(** The hook's callbacks are the three handlers. *)
Definition deliver (c : Callback) (a : App) : App :=
  match c with
  | OnMotionStart => handleMotionStart a
  | OnMotionEnd => handleMotionEnd a
  | OnError err => handleCameraError err a
  end.

Definition deliver_all (cs : list Callback) (a : App) : App :=
  fold_left (fun a c => deliver c a) cs a.

Inductive AppEvent : Type :=
| SetupComplete (file : File) (logo : string) (s : num)
| RetrySetup
| Called (c : Callback).

Definition app_step (ev : AppEvent) (a : App) : App :=
  match ev with
  | SetupComplete file logo s => handleSetupComplete file logo s a
  | RetrySetup => handleRetrySetup a
  | Called c => deliver c a
  end.

Definition app_run (evs : list AppEvent) (a : App) : App :=
  fold_left (fun a ev => app_step ev a) evs a.

Definition initial_app : App := mkApp None false None [] 1.

(** The live object URLs are exactly the one of the current config, and
    it is older than the next one the browser will hand out. *)
Definition urls_ok (a : App) : Prop :=
  objectUrls a = match config a with
                 | Some c => [videoObjectUrl c]
                 | None => []
                 end /\
  forall u, In u (objectUrls a) -> (u < nextUrl a)%nat.

(* ------------------------------------------------------------------ *)
(** ** The setup form ([SetupScreen.tsx]) *)

Record Form : Type := mkForm {
  videoFile : option File;
  logoUrlField : string;
  sensitivityField : num }.

Definition default_logo : string :=
  "https://www.google.com/images/branding/googlelogo/2x/googlelogo_light_color_272x92dp.png".

Definition initial_form : Form := mkForm None default_logo (of_Z 50).

Inductive FormEvent : Type :=
| FileChange (files : option (list File))     (* [e.target.files] *)
| LogoChange (value : string)
| SensitivityChange (value : num)             (* [Number(e.target.value)] *)
| Submit.

(** [if (e.target.files && e.target.files.length > 0) setVideoFile(files[0])] *)
Definition handleFileChange (files : option (list File)) (fm : Form) : Form :=
  match files with
  | Some (f :: _) => mkForm (Some f) (logoUrlField fm) (sensitivityField fm)
  | _ => fm
  end.

(** [if (videoFile && logoUrl) onComplete(videoFile, logoUrl, sensitivity)]:
    the arguments of the call, if it is made. *)
Definition handleSubmit (fm : Form) : option (File * string * num) :=
  match videoFile fm, logoUrlField fm with
  | Some f, String _ _ as url => Some (f, url, sensitivityField fm)
  | _, _ => None
  end.

Definition form_step (ev : FormEvent) (fm : Form) : Form :=
  match ev with
  | FileChange files => handleFileChange files fm
  | LogoChange v => mkForm (videoFile fm) v (sensitivityField fm)
  | SensitivityChange v => mkForm (videoFile fm) (logoUrlField fm) v
  | Submit => fm
  end.

(** The [onComplete] calls a sequence of form events makes, in order. *)
Fixpoint submissions (evs : list FormEvent) (fm : Form) : list (File * string * num) :=
  match evs with
  | [] => []
  | ev :: evs' =>
      match ev, handleSubmit fm with
      | Submit, Some args => args :: submissions evs' (form_step ev fm)
      | _, _ => submissions evs' (form_step ev fm)
      end
  end.

Definition form_run (evs : list FormEvent) (fm : Form) : Form :=
  fold_left (fun fm ev => form_step ev fm) evs fm.

(** Further sample states. *)

(** The camera is granted, playback has not started yet. *)
Definition starting : World := after [Enable; GetUserMediaSettled 1 None].

(** The camera was refused: the engine is disabled after an error. *)
Definition failed : World := after [Enable; GetUserMediaSettled 1 (Some denied)].

(** Playback is then refused. *)
Definition refused : Thrown :=
  DOMException "NotAllowedError" "play() failed because the user didn't interact".

(* ------------------------------------------------------------------ *)
(** ** Rounding: how large a binary64 result can be

    The decision [changedPixels > motionPixelThreshold] is settled by the
    exponents of the two numbers, so it is enough to bound the exponent
    and the magnitude of each rounded result. *)

Lemma digits2_pos_size p : digits2_pos p = Pos.size p.
Proof. induction p; simpl; congruence. Qed.

Lemma Zdigits2_log2 m : 0 < m -> Zdigits2 m = Z.log2 m + 1.
Proof.
  destruct m as [|p|p]; try lia. intros _. simpl Zdigits2.
  rewrite digits2_pos_size. destruct p; simpl; lia.
Qed.

Lemma Zdigits2_0 : Zdigits2 0 = 0. Proof. reflexivity. Qed.

Lemma Zdigits2_nonneg m : 0 <= Zdigits2 m.
Proof. destruct m; simpl; lia. Qed.

Lemma Zdigits2_pos m : 0 < m -> 1 <= Zdigits2 m.
Proof. intros H. rewrite Zdigits2_log2 by lia. pose proof (Z.log2_nonneg m). lia. Qed.

Lemma Zdigits2_le a b : 0 <= a <= b -> Zdigits2 a <= Zdigits2 b.
Proof.
  intros [Ha Hab]. destruct (Z.eq_dec a 0) as [->|Hn].
  - apply Zdigits2_nonneg.
  - rewrite !Zdigits2_log2 by lia. pose proof (Z.log2_le_mono a b Hab). lia.
Qed.

Lemma Zdigits2_succ a : 0 <= a -> Zdigits2 (a + 1) <= Zdigits2 a + 1.
Proof.
  intros Ha. destruct (Z.eq_dec a 0) as [->|Hn]; [simpl; lia|].
  rewrite !Zdigits2_log2 by lia.
  pose proof (Z.log2_succ_le a). unfold Z.succ in *. lia.
Qed.

Lemma Zdigits2_mul a b : 0 < a -> 0 < b -> Zdigits2 (a * b) <= Zdigits2 a + Zdigits2 b.
Proof.
  intros Ha Hb. rewrite !Zdigits2_log2 by nia.
  pose proof (Z.log2_mul_above a b). lia.
Qed.

Lemma Zdigits2_mul_low a b : 0 < a -> 0 < b -> Zdigits2 a + Zdigits2 b <= Zdigits2 (a * b) + 1.
Proof.
  intros Ha Hb. rewrite !Zdigits2_log2 by nia.
  pose proof (Z.log2_mul_below a b Ha Hb). lia.
Qed.

Lemma Zdigits2_div2 m : 0 <= m -> Zdigits2 (Z.div2 m) <= Z.max (Zdigits2 m - 1) 0.
Proof.
  intros Hm. destruct m as [|p|p]; try lia; [simpl; lia|].
  destruct p; cbn [Z.div2 Pos.div2 Zdigits2 digits2_pos]; rewrite ?Pos2Z.inj_succ; lia.
Qed.

(* one step of shr *)
Lemma shr_1_m mrs : 0 <= shr_m mrs -> shr_m (shr_1 mrs) = Z.div2 (shr_m mrs).
Proof.
  destruct mrs as [m r s]. simpl. destruct m as [|p|p]; try lia; intros _.
  - reflexivity.
  - destruct p; reflexivity.
Qed.

Lemma shr_1_digits mrs : 0 <= shr_m mrs ->
  0 <= shr_m (shr_1 mrs) /\ Zdigits2 (shr_m (shr_1 mrs)) <= Z.max (Zdigits2 (shr_m mrs) - 1) 0.
Proof.
  intros H. rewrite shr_1_m by assumption. split.
  - rewrite Z.div2_div. apply Z.div_pos; lia.
  - apply Zdigits2_div2; assumption.
Qed.

Lemma iter_shr_1_digits p : forall mrs, 0 <= shr_m mrs ->
  0 <= shr_m (iter_pos shr_1 p mrs) /\
  Zdigits2 (shr_m (iter_pos shr_1 p mrs)) <= Z.max (Zdigits2 (shr_m mrs) - Zpos p) 0.
Proof.
  induction p as [p IH|p IH|]; intros mrs Hm; simpl.
  - destruct (shr_1_digits mrs Hm) as [H1 H2].
    destruct (IH _ H1) as [H3 H4]. destruct (IH _ H3) as [H5 H6].
    split; [assumption|]. lia.
  - destruct (IH _ Hm) as [H3 H4]. destruct (IH _ H3) as [H5 H6].
    split; [assumption|]. lia.
  - apply shr_1_digits; assumption.
Qed.

Lemma shr_digits mrs e n : 0 <= shr_m mrs ->
  let '(mrs', e') := shr mrs e n in
  0 <= shr_m mrs' /\ e' = e + Z.max n 0 /\
  Zdigits2 (shr_m mrs') <= Z.max (Zdigits2 (shr_m mrs) - Z.max n 0) 0.
Proof.
  intros Hm. destruct n as [|p|p]; simpl.
  - pose proof (Zdigits2_nonneg (shr_m mrs)). repeat split; lia.
  - destruct (iter_shr_1_digits p mrs Hm) as [H1 H2]. repeat split; try lia.
  - pose proof (Zdigits2_nonneg (shr_m mrs)). repeat split; lia.
Qed.

Lemma shr_record_of_loc_m m l : shr_m (shr_record_of_loc m l) = m.
Proof. destruct l as [|[]]; reflexivity. Qed.

Lemma round_nearest_even_bounds m l : m <= round_nearest_even m l <= m + 1.
Proof. destruct l as [|[]]; simpl; try lia. destruct (Z.even m); lia. Qed.

(** Magnitude and exponent of a rounded result. *)
Lemma binary_round_aux_bounds m e l :
  0 <= m ->
  let M := Z.max (Zdigits2 m + e) (fexp prec emax (Zdigits2 m + e)) in
  let E := Z.max e (fexp prec emax (Zdigits2 m + e)) in
  E + 1 <= emax - prec ->
  binary_round_aux prec emax false m e l = S754_zero false \/
  exists m' e', binary_round_aux prec emax false m e l = S754_finite false m' e' /\
                e' <= E + 1 /\ Zdigits2 (Zpos m') + e' <= M + 1.
Proof.
  intros Hm M E HE. unfold binary_round_aux, shr_fexp.
  pose proof (shr_digits (shr_record_of_loc m l) e (fexp prec emax (Zdigits2 m + e) - e)) as H1.
  rewrite shr_record_of_loc_m in H1. specialize (H1 Hm).
  destruct (shr (shr_record_of_loc m l) e (fexp prec emax (Zdigits2 m + e) - e)) as [mrs' e'].
  destruct H1 as (H1a & H1b & H1c).
  set (mr := round_nearest_even (shr_m mrs') (loc_of_shr_record mrs')).
  pose proof (round_nearest_even_bounds (shr_m mrs') (loc_of_shr_record mrs')) as Hr. fold mr in Hr.
  assert (Hmr : 0 <= mr) by lia.
  assert (Hdr : Zdigits2 mr <= Zdigits2 (shr_m mrs') + 1).
  { etransitivity; [apply Zdigits2_le with (b := shr_m mrs' + 1); lia|]. apply Zdigits2_succ; lia. }
  pose proof (shr_digits (shr_record_of_loc mr loc_Exact) e' (fexp prec emax (Zdigits2 mr + e') - e')) as H2.
  rewrite shr_record_of_loc_m in H2. specialize (H2 Hmr).
  destruct (shr (shr_record_of_loc mr loc_Exact) e' (fexp prec emax (Zdigits2 mr + e') - e')) as [mrs'' e''].
  destruct H2 as (H2a & H2b & H2c).
  pose proof (Zdigits2_nonneg m). pose proof (Zdigits2_nonneg mr). pose proof (Zdigits2_nonneg (shr_m mrs')).
  destruct (shr_m mrs'') as [|p|p] eqn:Ep; [left; reflexivity| |lia].
  right.
  assert (Hp : 1 <= Zdigits2 (Zpos p)) by (apply Zdigits2_pos; lia).
  assert (He'' : e'' <= E + 1 /\ Zdigits2 (Z.pos p) + e'' <= M + 1).
  { subst M E. unfold fexp, emin, prec, emax in *. lia. }
  destruct He'' as [He1 He2].
  exists p, e''. replace (e'' <=? emax - prec) with true by (symmetry; apply Z.leb_le; lia).
  auto.
Qed.


Lemma digits2_pos_iter_xO k p : 
  Zpos (digits2_pos (Pos.iter xO p k)) = Zpos (digits2_pos p) + Zpos k.
Proof.
  revert p. induction k using Pos.peano_ind; intros p.
  - simpl. rewrite Pos2Z.inj_succ. lia.
  - rewrite Pos.iter_succ. cbn [digits2_pos]. rewrite Pos2Z.inj_succ, IHk. lia.
Qed.

Lemma Zpos_iter_xO k p : Zpos (Pos.iter xO p k) = Zpos p * 2 ^ Zpos k.
Proof.
  revert p. induction k using Pos.peano_ind; intros p.
  - simpl. lia.
  - rewrite Pos.iter_succ, Pos2Z.inj_succ, Z.pow_succ_r by lia.
    rewrite Pos2Z.inj_xO, IHk. lia.
Qed.

(** Integers below 2^53 convert exactly, to a full 53-bit mantissa. *)
Lemma of_Z_small z : 0 < z < 2 ^ 53 ->
  exists m, of_Z z = S754_finite false m (Zdigits2 z - 53) /\ Zdigits2 (Zpos m) = 53
            /\ Zpos m = z * 2 ^ (53 - Zdigits2 z).
Proof.
  intros [Hz Hlt]. destruct z as [|p|p]; try lia.
  assert (Hd : 1 <= Zdigits2 (Zpos p) <= 53).
  { split; [apply Zdigits2_pos; lia|]. rewrite Zdigits2_log2 by lia.
    pose proof (proj1 (Z.log2_lt_pow2 (Zpos p) 53 ltac:(lia)) Hlt). lia. }
  unfold of_Z, binary_normalize, binary_round.
  cbn [Zdigits2] in Hd.
  assert (Hf : fexp prec emax (Zpos (digits2_pos p) + 0) = Zpos (digits2_pos p) - 53).
  { unfold fexp, emin, prec, emax. lia. }
  rewrite Hf. unfold shl_align.
  destruct (Zpos (digits2_pos p) - 53 - 0) as [|d|d] eqn:Ed; try lia.
  - (* already 53 bits *)
    exists p. cbn [Zdigits2]. replace (Zpos (digits2_pos p) - 53) with 0 by lia.
    replace (53 - Zpos (digits2_pos p)) with 0 by lia.
    split; [|split; lia].
    unfold binary_round_aux, shr_fexp. cbn [Zdigits2].
    replace (fexp prec emax (Zpos (digits2_pos p) + 0) - 0) with 0
      by (unfold fexp, emin, prec, emax; lia).
    cbn [shr shr_record_of_loc shr_m loc_of_shr_record round_nearest_even Zdigits2].
    replace (fexp prec emax (Zpos (digits2_pos p) + 0) - 0) with 0
      by (unfold fexp, emin, prec, emax; lia).
    cbn [shr shr_record_of_loc shr_m]. reflexivity.
  - exists (Pos.iter xO p d).
    pose proof (digits2_pos_iter_xO d p) as Hdd.
    cbn [Zdigits2]. split; [|split].
    + unfold binary_round_aux, shr_fexp. cbn [Zdigits2].
      replace (fexp prec emax (Zpos (digits2_pos (Pos.iter xO p d)) + (Zpos (digits2_pos p) - 53))
               - (Zpos (digits2_pos p) - 53)) with 0
        by (unfold fexp, emin, prec, emax; lia).
      cbn [shr shr_record_of_loc shr_m loc_of_shr_record round_nearest_even Zdigits2].
      replace (fexp prec emax (Zpos (digits2_pos (Pos.iter xO p d)) + (Zpos (digits2_pos p) - 53))
               - (Zpos (digits2_pos p) - 53)) with 0
        by (unfold fexp, emin, prec, emax; lia).
      cbn [shr shr_record_of_loc shr_m].
      replace (Zpos (digits2_pos p) - 53 <=? emax - prec) with true
        by (symmetry; apply Z.leb_le; unfold emax, prec; lia).
      reflexivity.
    + lia.
    + rewrite Zpos_iter_xO. f_equal. f_equal. lia.
Qed.

Lemma mul_below E1 M1 E2 M2 x y :
  below E1 M1 x -> below E2 M2 y ->
  Z.max (E1 + E2) (fexp prec emax (M1 + M2)) + 1 <= emax - prec ->
  below (Z.max (E1 + E2) (fexp prec emax (M1 + M2)) + 1)
        (Z.max (M1 + M2) (fexp prec emax (M1 + M2)) + 1) (mul x y).
Proof.
  intros [->|(mx & ex & -> & Hex & Hmx)] [->|(my & ey & -> & Hey & Hmy)] Hov;
    try (left; reflexivity).
  unfold mul, SFmul. cbn [xorb].
  pose proof (Zdigits2_mul (Zpos mx) (Zpos my) ltac:(lia) ltac:(lia)) as Hd.
  rewrite <- Pos2Z.inj_mul in Hd.
  assert (Hb := binary_round_aux_bounds (Zpos (mx * my)) (ex + ey) loc_Exact ltac:(lia)).
  cbv zeta in Hb.
  assert (Hside : Z.max (ex + ey) (fexp prec emax (Zdigits2 (Zpos (mx * my)) + (ex + ey))) + 1
                  <= emax - prec).
  { unfold fexp, emin, prec, emax in *. lia. }
  destruct (Hb Hside) as [H0|(m' & e' & Hr & He & Hm)]; [left; exact H0|].
  right. exists m', e'. split; [exact Hr|].
  unfold fexp, emin, prec, emax in *. lia.
Qed.

Lemma div_below E1 M1 x my ey :
  below E1 M1 x ->
  let D := M1 - (Zdigits2 (Zpos my) + ey) in
  fexp prec emax (D + 1) + 1 <= emax - prec ->
  below (fexp prec emax (D + 1) + 1) (Z.max (D + 1) (fexp prec emax (D + 1)) + 1)
        (div x (S754_finite false my ey)).
Proof.
  intros [->|(mx & ex & -> & Hex & Hmx)] D Hov; [left; reflexivity|].
  unfold div, SFdiv, SFdiv_core_binary. cbn [xorb].
  set (d1 := Zdigits2 (Zpos mx)) in *. set (d2 := Zdigits2 (Zpos my)) in *.
  set (e' := Z.min (fexp prec emax (d1 + ex - (d2 + ey))) (ex - ey)).
  set (s := ex - ey - e').
  set (m' := match s with Zpos _ => Z.shiftl (Zpos mx) s | Z0 => Zpos mx | Zneg _ => 0 end).
  assert (Hs : 0 <= s) by (subst s e'; lia).
  assert (Hm' : m' = Zpos mx * 2 ^ s).
  { subst m'. destruct s as [|p|p]; try lia.
    - rewrite Z.shiftl_mul_pow2 by lia. reflexivity. }
  assert (Hm'pos : 0 < m') by (rewrite Hm'; apply Z.mul_pos_pos; [lia|apply Z.pow_pos_nonneg; lia]).
  assert (Hdm' : Zdigits2 m' = d1 + s).
  { rewrite Hm', Zdigits2_log2 by (rewrite <- Hm'; lia).
    rewrite Z.log2_mul_pow2 by lia. subst d1. rewrite Zdigits2_log2 by lia. lia. }
  pose proof (Z_div_mod m' (Zpos my) ltac:(lia)) as Hdiv.
  destruct (Z.div_eucl m' (Zpos my)) as [q r]. destruct Hdiv as [Hq Hr].
  assert (Hq0 : 0 <= q) by nia.
  assert (Hdq : Zdigits2 q <= Z.max (d1 + s - d2 + 1) 0).
  { destruct (Z.eq_dec q 0) as [->|Hqn]; [simpl; lia|].
    pose proof (Zdigits2_mul_low q (Zpos my) ltac:(lia) ltac:(lia)) as H1.
    pose proof (Zdigits2_le (q * Zpos my) m' ltac:(nia)) as H2.
    fold d2 in H1. lia. }
  assert (Hb := binary_round_aux_bounds q e' (new_location (Zpos my) r) Hq0).
  cbv zeta in Hb.
  pose proof (Zdigits2_nonneg q).
  assert (Hside : Z.max e' (fexp prec emax (Zdigits2 q + e')) + 1 <= emax - prec).
  { subst D e' s. unfold fexp, emin, prec, emax in *. lia. }
  destruct (Hb Hside) as [H0|(m'' & e'' & Hres & He & Hm)]; [left; exact H0|].
  right. exists m'', e''. split; [exact Hres|].
  subst D e' s. unfold fexp, emin, prec, emax in *. lia.
Qed.

Lemma lit_0_001_eq : lit_0_001 = S754_finite false 4611686018427388 (-62).
Proof. vm_compute. reflexivity. Qed.

Lemma of_Z_4 : of_Z 4 = S754_finite false 4503599627370496 (-50).
Proof. vm_compute. reflexivity. Qed.


Lemma below_of_Z z : 0 < z < 2 ^ 53 -> below (Zdigits2 z - 53) (Zdigits2 z) (of_Z z).
Proof.
  intros Hz. destruct (of_Z_small z Hz) as (m & -> & Hd & _).
  right. exists m, (Zdigits2 z - 53). split; [reflexivity|]. lia.
Qed.

Lemma gt_below n E M x :
  0 < n < 2 ^ 53 -> below E M x -> E < Zdigits2 n - 53 -> gt (of_Z n) x = true.
Proof.
  intros Hn [->|(m & e & -> & He & _)] HE;
    destruct (of_Z_small n Hn) as (mn & -> & _ & _); unfold gt, SFltb, SFcompare.
  - reflexivity.
  - replace (e ?= Zdigits2 n - 53) with Lt by (symmetry; apply Z.compare_lt_iff; lia).
    reflexivity.
Qed.

Lemma motion_present_all w h n :
  0 < w -> 0 < h -> w * h <= 4 * n -> 0 < n < 2 ^ 53 -> w * h < 2 ^ 53 ->
  gt (of_Z n) (motionPixelThreshold w h) = true.
Proof.
  intros Hw Hh Hn Hn53 Hp.
  assert (Hw53 : 0 < w < 2 ^ 53) by nia.
  assert (Hh53 : 0 < h < 2 ^ 53) by nia.
  pose proof (below_of_Z w Hw53) as Bw. pose proof (below_of_Z h Hh53) as Bh.
  set (dw := Zdigits2 w) in *. set (dh := Zdigits2 h) in *.
  assert (Hdp : dw + dh <= Zdigits2 (w * h) + 1) by (apply Zdigits2_mul_low; lia).
  assert (Hdp53 : Zdigits2 (w * h) <= 53).
  { rewrite Zdigits2_log2 by nia.
    pose proof (proj1 (Z.log2_lt_pow2 (w * h) 53 ltac:(nia)) Hp). lia. }
  assert (Hdn : Zdigits2 (w * h) <= Zdigits2 n + 2).
  { pose proof (Zdigits2_le (w * h) (n * 2 ^ 2) ltac:(nia)) as H1.
    rewrite (Zdigits2_log2 (n * 2 ^ 2)) in H1 by nia.
    rewrite Z.log2_mul_pow2 in H1 by lia. rewrite (Zdigits2_log2 n) by lia. lia. }
  assert (Hdw : 1 <= dw) by (apply Zdigits2_pos; lia).
  assert (Hdh : 1 <= dh) by (apply Zdigits2_pos; lia).
  pose proof (mul_below _ _ _ _ _ _ Bw Bh) as BP.
  match type of BP with ?A -> _ => assert (HA : A) by (unfold fexp, emin, prec, emax; lia) end.
  specialize (BP HA). clear HA.
  unfold motionPixelThreshold. change (of_Z (Z.of_nat resolution)) with (of_Z 4).
  rewrite of_Z_4, lit_0_001_eq.
  pose proof (div_below _ _ _ 4503599627370496 (-50) BP) as BX. cbv zeta in BX.
  change (Zdigits2 (Zpos 4503599627370496)) with 53 in BX.
  match type of BX with ?A -> _ => assert (HA : A) by (unfold fexp, emin, prec, emax; lia) end.
  specialize (BX HA). clear HA.
  assert (Bc : below (-62) (-9) (S754_finite false 4611686018427388 (-62))).
  { right. eexists _, _. split; [reflexivity|]. change (Zdigits2 (Zpos 4611686018427388)) with 53. lia. }
  pose proof (mul_below _ _ _ _ _ _ BX Bc) as BT.
  match type of BT with ?A -> _ => assert (HA : A) by (unfold fexp, emin, prec, emax; lia) end.
  specialize (BT HA). clear HA.
  eapply gt_below; [assumption|exact BT|].
  unfold fexp, emin, prec, emax. lia.
Qed.

(* ------------------------------------------------------------------ *)
(** ** The sampling loop *)

Lemma sampled_spec len k : (16 * k < len <-> k < sampled len)%nat.
Proof.
  unfold sampled.
  pose proof (Nat.div_mod_eq (len + 15) 16) as H.
  pose proof (Nat.mod_upper_bound (len + 15) 16 ltac:(lia)) as H'.
  lia.
Qed.

Lemma scan_unfold fuel thr lastData currentData i c :
  scan (S fuel) thr lastData currentData i c =
  if (i <? length currentData)%nat then
    scan fuel thr lastData currentData (i + 16)
         (if pixel_changed thr lastData currentData i then S c else c)
  else c.
Proof. reflexivity. Qed.

(** The loop runs once per sampled offset, and more fuel changes nothing. *)
Lemma scan_enough_fuel thr lastData currentData :
  forall fuel1 fuel2 k c,
    (sampled (length currentData) <= fuel1 + k)%nat ->
    (sampled (length currentData) <= fuel2 + k)%nat ->
    scan fuel1 thr lastData currentData (16 * k) c =
    scan fuel2 thr lastData currentData (16 * k) c.
Proof.
  induction fuel1 as [|fuel1 IH]; intros fuel2 k c H1 H2.
  - destruct fuel2 as [|fuel2]; [reflexivity|].
    rewrite scan_unfold. simpl scan at 1.
    destruct (Nat.ltb_spec (16 * k) (length currentData)) as [Hlt|Hge]; [|reflexivity].
    apply sampled_spec in Hlt. lia.
  - rewrite scan_unfold.
    destruct (Nat.ltb_spec (16 * k) (length currentData)) as [Hlt|Hge].
    + apply sampled_spec in Hlt.
      destruct fuel2 as [|fuel2]; [lia|].
      rewrite scan_unfold.
      replace (16 * k <? length currentData)%nat with true
        by (symmetry; apply Nat.ltb_lt, sampled_spec; lia).
      replace (16 * k + 16)%nat with (16 * S k)%nat by lia.
      apply IH; lia.
    + destruct fuel2 as [|fuel2]; [reflexivity|].
      rewrite scan_unfold.
      replace (16 * k <? length currentData)%nat with false
        by (symmetry; apply Nat.ltb_ge; lia).
      reflexivity.
Qed.

Lemma sampled_le len : (sampled len <= len)%nat.
Proof.
  unfold sampled.
  pose proof (Nat.div_mod_eq (len + 15) 16) as H.
  pose proof (Nat.mod_upper_bound (len + 15) 16 ltac:(lia)) as H'.
  lia.
Qed.

(** When every sampled offset counts, the loop counts all of them. *)
Lemma scan_all_changed thr lastData currentData :
  (forall k, (16 * k < length currentData)%nat ->
             pixel_changed thr lastData currentData (16 * k) = true) ->
  forall fuel k c,
    (sampled (length currentData) <= fuel + k)%nat ->
    scan fuel thr lastData currentData (16 * k) c
    = (c + (sampled (length currentData) - k))%nat.
Proof.
  intros Hall. induction fuel as [|fuel IH]; intros k c Hf.
  - simpl. lia.
  - rewrite scan_unfold.
    destruct (Nat.ltb_spec (16 * k) (length currentData)) as [Hlt|Hge].
    + rewrite Hall by assumption.
      replace (16 * k + 16)%nat with (16 * S k)%nat by lia.
      rewrite IH by lia. apply sampled_spec in Hlt. lia.
    + assert (~ (k < sampled (length currentData))%nat)
        by (rewrite <- sampled_spec; lia).
      lia.
Qed.

(** Offsets that never count bound the result: only offsets below [L]
    can be counted. *)
Lemma scan_bounded thr lastData currentData L :
  (forall i, (L <= i)%nat -> pixel_changed thr lastData currentData i = false) ->
  forall fuel k c,
    (scan fuel thr lastData currentData (16 * k) c
     <= c + (sampled (Nat.min L (length currentData)) - k))%nat.
Proof.
  intros Hout. induction fuel as [|fuel IH]; intros k c.
  - simpl. lia.
  - rewrite scan_unfold.
    destruct (Nat.ltb_spec (16 * k) (length currentData)) as [Hlt|Hge]; [|lia].
    replace (16 * k + 16)%nat with (16 * S k)%nat by lia.
    destruct (Nat.lt_ge_cases (16 * k) L) as [HL|HL].
    + assert (k < sampled (Nat.min L (length currentData)))%nat
        by (apply sampled_spec; lia).
      etransitivity; [apply IH|].
      destruct (pixel_changed thr lastData currentData (16 * k)); lia.
    + rewrite Hout by assumption.
      etransitivity; [apply IH|]. lia.
Qed.

(** A read past the end of the retained buffer poisons the difference. *)
Lemma read_out_of_range arr i : (length arr <= i)%nat -> read arr i = NaN.
Proof.
  intros H. unfold read. apply nth_error_None in H. rewrite H. reflexivity.
Qed.

Lemma pixel_changed_out_of_range thr lastData currentData i :
  (length lastData <= i)%nat -> pixel_changed thr lastData currentData i = false.
Proof.
  intros H. unfold pixel_changed, diff, avg.
  rewrite (read_out_of_range lastData i H).
  unfold gt, Num.abs, Num.sub, Num.div, Num.add, NaN.
  cbn [SFadd SFdiv SFsub SFabs]. unfold SFltb, SFcompare.
  destruct thr; reflexivity.
Qed.

(* ------------------------------------------------------------------ *)
(** ** One tick *)

Lemma detectMotionLoop_not_ready f w :
  ready (hook w) f = false -> detectMotionLoop f w = reschedule w.
Proof.
  unfold ready, detectMotionLoop.
  destruct (videoRef (hook w)); [|reflexivity].
  destruct (canvasRef (hook w)); [|reflexivity].
  destruct (paused f || ended f || (readyState f <? HAVE_ENOUGH_DATA)); [reflexivity|].
  destruct (has2d f); [|reflexivity].
  destruct ((videoWidth f =? 0) || (videoHeight f =? 0)); [reflexivity|].
  discriminate.
Qed.

Lemma detectMotionLoop_ready f w :
  ready (hook w) f = true ->
  detectMotionLoop f w =
  match lastImageDataRef (hook w) with
  | None => reschedule (store f w)
  | Some last =>
      reschedule (if classify (sensitivityRef (hook w)) last f
                  then onMotion (store f w) else store f w)
  end.
Proof.
  unfold ready, detectMotionLoop.
  destruct (videoRef (hook w)); [|discriminate].
  destruct (canvasRef (hook w)); [|discriminate].
  destruct (paused f || ended f || (readyState f <? HAVE_ENOUGH_DATA)); [discriminate|].
  destruct (has2d f); [|discriminate].
  destruct ((videoWidth f =? 0) || (videoHeight f =? 0)); [discriminate|].
  intros _. cbn [negb]. unfold store, classify.
  destruct w as [h b]. cbn [hook on_hook set_canvasRef lastImageDataRef sensitivityRef].
  destruct (lastImageDataRef h); reflexivity.
Qed.

(** The three shapes of a tick. *)
Lemma detectMotionLoop_shape f w :
  detectMotionLoop f w = reschedule w \/
  detectMotionLoop f w = reschedule (store f w) \/
  (motion_tick w f = true /\ detectMotionLoop f w = reschedule (onMotion (store f w))).
Proof.
  destruct (ready (hook w) f) eqn:Hr.
  - rewrite (detectMotionLoop_ready f w Hr). unfold motion_tick. rewrite Hr.
    destruct (lastImageDataRef (hook w)) as [last|]; [|auto].
    destruct (classify (sensitivityRef (hook w)) last f); auto.
  - left. apply detectMotionLoop_not_ready; assumption.
Qed.

Lemma detectMotionLoop_motion f w :
  motion_tick w f = true -> detectMotionLoop f w = reschedule (onMotion (store f w)).
Proof.
  unfold motion_tick. intros H. apply andb_prop in H as [Hr Hc].
  rewrite (detectMotionLoop_ready f w Hr).
  destruct (lastImageDataRef (hook w)); [|discriminate]. rewrite Hc. reflexivity.
Qed.

Lemma detectMotionLoop_still f w :
  motion_tick w f = false ->
  detectMotionLoop f w = reschedule w \/ detectMotionLoop f w = reschedule (store f w).
Proof.
  intros H. destruct (detectMotionLoop_shape f w) as [?|[?|[H' _]]]; auto. congruence.
Qed.

(** What [reschedule] and [store] leave alone. *)

Lemma reschedule_browser w :
  browser (reschedule w) =
  set_fresh (S (fresh (browser w)))
    (set_animationFrames (animationFrames (browser w) ++ [fresh (browser w)]) (browser w)).
Proof. reflexivity. Qed.

Lemma reschedule_hook w :
  hook (reschedule w) = set_requestRef (Some (fresh (browser w))) (hook w).
Proof. reflexivity. Qed.

Lemma store_browser f w : browser (store f w) = browser w.
Proof. reflexivity. Qed.

Lemma onMotion_calls w :
  calls (browser (onMotion w)) =
  if isDetectingMotionRef (hook w) then calls (browser w)
  else calls (browser w) ++ [OnMotionStart].
Proof.
  destruct w as [h b]. unfold onMotion. cbn [hook browser].
  destruct (isDetectingMotionRef h) eqn:E; cbn [negb];
    destruct h as [a1 a2 a3 a4 a5 a6 [[|n]|] a8 a9]; reflexivity.
Qed.

Lemma onMotion_active w : isDetectingMotionRef (hook (onMotion w)) = true.
Proof.
  destruct w as [h b]. unfold onMotion. cbn [hook browser].
  destruct (isDetectingMotionRef h) eqn:E; cbn [negb];
    destruct h as [a1 a2 a3 a4 a5 a6 [[|n]|] a8 a9]; cbn in *; congruence.
Qed.

Lemma onMotion_timers w :
  timers_ok w ->
  timers (browser (onMotion w)) = [mkTimer (fresh (browser w)) (now (browser w)) 1000]
  /\ motionTimeoutRef (hook (onMotion w)) = Some (fresh (browser w))
  /\ fresh (browser (onMotion w)) = S (fresh (browser w)).
Proof.
  destruct w as [h b]. unfold timers_ok, onMotion. cbn [hook browser].
  intros [Hnil|(t & Ht & Href & Hnz & _)].
  - destruct (isDetectingMotionRef h); cbn [negb];
      destruct h as [a1 a2 a3 a4 a5 a6 [[|n]|] a8 a9]; destruct b; cbn in *;
        subst; auto.
  - destruct (isDetectingMotionRef h); cbn [negb];
      destruct h as [a1 a2 a3 a4 a5 a6 a7 a8 a9]; destruct b; cbn in *; subst;
        (destruct (tid t) as [|n] eqn:Et; [congruence|]);
        cbn; rewrite Et, Nat.eqb_refl; cbn; auto.
Qed.

Lemma onMotion_other w :
  liveStreams (browser (onMotion w)) = liveStreams (browser w) /\
  animationFrames (browser (onMotion w)) = animationFrames (browser w) /\
  suspended (browser (onMotion w)) = suspended (browser w) /\
  now (browser (onMotion w)) = now (browser w) /\
  streamRef (hook (onMotion w)) = streamRef (hook w) /\
  stream (hook (onMotion w)) = stream (hook w) /\
  requestRef (hook (onMotion w)) = requestRef (hook w) /\
  lastImageDataRef (hook (onMotion w)) = lastImageDataRef (hook w).
Proof.
  destruct w as [h b]. unfold onMotion. cbn [hook browser].
  destruct (isDetectingMotionRef h); cbn [negb];
    destruct h as [a1 a2 a3 a4 a5 a6 [[|n]|] a8 a9]; destruct b; cbn; auto 10.
Qed.

(* ------------------------------------------------------------------ *)
(** ** Teardown *)

Lemma cleanup_eq w :
  cleanup w =
  mkWorld
    (mkHook None None None None None None
            (match motionTimeoutRef (hook w) with
             | Some O => Some O
             | _ => None
             end)
            false (sensitivityRef (hook w)))
    (mkBrowser
       (now (browser w)) (fresh (browser w))
       (match requestRef (hook w) with
        | Some id => without id (animationFrames (browser w))
        | None => animationFrames (browser w)
        end)
       (match motionTimeoutRef (hook w) with
        | Some (S n) =>
            filter (fun t => negb (Nat.eqb (tid t) (S n))) (timers (browser w))
        | _ => timers (browser w)
        end)
       (match streamRef (hook w) with
        | Some s => without s (liveStreams (browser w))
        | None => liveStreams (browser w)
        end)
       (suspended (browser w)) (calls (browser w))).
Proof.
  destruct w as [[a1 [v|] a3 [s|] [r|] a6 [[|n]|] a8 a9] b]; destruct b; reflexivity.
Qed.

Lemma without_not_in id l : ~ In id (without id l).
Proof.
  unfold without. intros H. apply filter_In in H as [_ H].
  rewrite Nat.eqb_refl in H. discriminate.
Qed.

Lemma without_idem id l : without id (without id l) = without id l.
Proof.
  unfold without. induction l as [|x l IH]; [reflexivity|].
  cbn [filter]. destruct (negb (x =? id)%nat) eqn:E; cbn [filter]; rewrite ?E; congruence.
Qed.

Lemma without_single id : without id [id] = [].
Proof. unfold without. cbn. rewrite Nat.eqb_refl. reflexivity. Qed.

Lemma clear_named_timer w id :
  timers_ok w -> motionTimeoutRef (hook w) = Some id ->
  filter (fun t => negb (Nat.eqb (tid t) id)) (timers (browser w)) = [].
Proof.
  intros [->|(t & -> & Href & _)] Hid; [reflexivity|].
  rewrite Hid in Href. injection Href as ->. cbn. rewrite Nat.eqb_refl. reflexivity.
Qed.

Lemma unnamed_no_timer w :
  timers_ok w ->
  match motionTimeoutRef (hook w) with Some (S _) => False | _ => True end ->
  timers (browser w) = [].
Proof.
  intros [H|(t & _ & Href & Hnz & _)] Hn; [assumption|].
  rewrite Href in Hn. destruct (tid t); [congruence|contradiction].
Qed.

Lemma cleanup_timers w : timers_ok w -> timers (browser (cleanup w)) = [].
Proof.
  intros Hok. rewrite cleanup_eq. cbn [browser timers].
  destruct (motionTimeoutRef (hook w)) as [[|n]|] eqn:E.
  - apply unnamed_no_timer; [assumption|rewrite E; exact I].
  - apply (clear_named_timer w (S n)); assumption.
  - apply unnamed_no_timer; [assumption|rewrite E; exact I].
Qed.

(* ------------------------------------------------------------------ *)
(** ** The invariant *)

Lemma Inv_frame w w' :
  Inv w ->
  timers (browser w') = timers (browser w) ->
  motionTimeoutRef (hook w') = motionTimeoutRef (hook w) ->
  isDetectingMotionRef (hook w') = isDetectingMotionRef (hook w) ->
  liveStreams (browser w') = liveStreams (browser w) ->
  (fresh (browser w) <= fresh (browser w'))%nat ->
  Inv w'.
Proof.
  intros (Hf & Ht & Hd & Hl & Hz) E1 E2 E3 E4 E5. unfold Inv, timers_ok.
  rewrite E1, E2, E3, E4. repeat split; try assumption; try lia.
  - destruct Ht as [?|(t & ? & ? & ? & ? & ?)]; [auto|].
    right. exists t. repeat split; try assumption. lia.
  - intros s Hs. specialize (Hl s Hs). lia.
Qed.

Lemma Inv_initial s : Inv (initial s).
Proof.
  unfold Inv, timers_ok, initial. cbn.
  repeat split; auto; try lia; try discriminate; try (intros ? []).
Qed.

Lemma Inv_timers_ok w : Inv w -> timers_ok w.
Proof. intros (_ & H & _). exact H. Qed.

Lemma Inv_reschedule w : Inv w -> Inv (reschedule w).
Proof. intros H. apply (Inv_frame w); auto. cbn. lia. Qed.

Lemma Inv_store f w : Inv w -> Inv (store f w).
Proof. intros H. apply (Inv_frame w); auto. Qed.

Lemma Inv_onMotion w : Inv w -> Inv (onMotion w).
Proof.
  intros H. pose proof H as (Hf & Ht & Hd & Hl & Hz).
  destruct (onMotion_timers w Ht) as (E1 & E2 & E3).
  destruct (onMotion_other w) as (E4 & _).
  unfold Inv, timers_ok. rewrite E1, E2, E3, E4.
  repeat split; try lia.
  - right. eexists. split; [reflexivity|]. cbn. repeat split; auto; lia.
  - discriminate.
  - intros s Hs. specialize (Hl s Hs). lia.
  - intros [= E]. lia.
Qed.

Lemma Inv_detectMotionLoop f w : Inv w -> Inv (detectMotionLoop f w).
Proof.
  intros H. destruct (detectMotionLoop_shape f w) as [->|[->|[_ ->]]].
  - apply Inv_reschedule; assumption.
  - apply Inv_reschedule, Inv_store; assumption.
  - apply Inv_reschedule, Inv_onMotion, Inv_store; assumption.
Qed.

Lemma without_subset id l x : In x (without id l) -> In x l.
Proof. unfold without. intros H. apply filter_In in H. tauto. Qed.

Lemma Inv_cleanup w : Inv w -> Inv (cleanup w).
Proof.
  intros H. pose proof H as (Hf & Ht & Hd & Hl & Hz).
  pose proof (cleanup_timers w Ht) as E.
  unfold Inv, timers_ok. rewrite E. rewrite cleanup_eq. cbn.
  repeat split; auto; try discriminate.
  - intros s Hs. apply Hl. destruct (streamRef (hook w)); [|assumption].
    eapply without_subset; eassumption.
  - destruct (motionTimeoutRef (hook w)) as [[|n]|]; congruence.
Qed.

Lemma Inv_setup w : Inv w -> Inv (setup w).
Proof.
  intros H. apply Inv_cleanup in H. unfold setup.
  apply (Inv_frame (cleanup w)); auto. cbn. lia.
Qed.

Lemma Inv_setup_catch err w : Inv w -> Inv (setup_catch err w).
Proof.
  intros H. unfold setup_catch. destruct (is_abort err); [assumption|].
  destruct err; apply (Inv_frame w); auto.
Qed.

Lemma due_in id b :
  due id b = true ->
  exists t, In t (timers b) /\ tid t = id /\ set_at t + delay t <= now b.
Proof.
  unfold due. intros H. apply existsb_exists in H as (t & Hin & Ht).
  apply andb_prop in Ht as [H1 H2]. apply Nat.eqb_eq in H1. apply Z.leb_le in H2.
  exists t. auto.
Qed.

Lemma step_Inv ev w w' : Inv w -> step ev w = Some w' -> Inv w'.
Proof.
  intros H. destruct ev as [dt|id f|id|k r|k r| | |s]; cbn [step].
  - destruct (0 <=? dt); [|discriminate]. intros [= <-].
    apply (Inv_frame w); auto.
  - destruct (existsb _ _); [|discriminate]. intros [= <-].
    apply Inv_detectMotionLoop. apply (Inv_frame w); auto.
  - destruct (due id (browser w)) eqn:Hdue; [|discriminate]. intros [= <-].
    pose proof H as (Hf & Ht & Hd & Hl & Hz).
    apply due_in in Hdue as (t & Hin & Hid & _).
    assert (Hc : filter (fun t0 => negb (Nat.eqb (tid t0) id)) (timers (browser w)) = []).
    { destruct Ht as [E|(t' & E & _)]; rewrite E in *; [destruct Hin|].
      destruct Hin as [->|[]]. cbn. rewrite Hid, Nat.eqb_refl. reflexivity. }
    unfold Inv, timers_ok. cbn. rewrite Hc.
    repeat split; auto. discriminate.
  - destruct (is_suspended k AwaitGetUserMedia (browser w)); [|discriminate].
    destruct r as [err|]; intros [= <-].
    + apply Inv_setup_catch. apply (Inv_frame w); auto.
    + pose proof H as (Hf & Ht & Hd & Hl & Hz).
      unfold Inv, timers_ok. cbn. repeat split; auto; try lia.
      * destruct Ht as [?|(t & ? & ? & ? & ? & ?)]; [auto|].
        right. exists t. repeat split; auto; lia.
      * intros s Hs. apply in_app_or in Hs as [Hs|[<-|[]]]; [|lia].
        specialize (Hl s Hs). lia.
  - destruct (is_suspended k AwaitPlay (browser w)); [|discriminate].
    destruct r as [err|]; intros [= <-].
    + apply Inv_setup_catch. apply (Inv_frame w); auto.
    + apply Inv_reschedule. apply (Inv_frame w); auto.
  - intros [= <-]. apply Inv_setup; assumption.
  - intros [= <-]. apply Inv_cleanup; assumption.
  - intros [= <-]. apply (Inv_frame w); auto.
Qed.

Lemma exec_Inv es : forall w w', Inv w -> exec es w = Some w' -> Inv w'.
Proof.
  induction es as [|ev es IH]; intros w w' H; cbn [exec].
  - intros [= <-]. assumption.
  - destruct (step ev w) as [w1|] eqn:E; [|discriminate].
    apply IH. eapply step_Inv; eassumption.
Qed.

Lemma Inv_after es : Inv (after es).
Proof.
  unfold after. destruct (exec es (initial (of_Z 50))) as [w|] eqn:E.
  - eapply exec_Inv; [apply Inv_initial|exact E].
  - apply Inv_initial.
Qed.

(* ------------------------------------------------------------------ *)
(** ** The threshold *)

Lemma thresholds_close : forallb threshold_close sensitivities = true.
Proof. vm_compute. reflexivity. Qed.

Lemma in_sensitivities s : 1 <= s <= 100 -> In s sensitivities.
Proof.
  intros H. unfold sensitivities. apply in_map_iff.
  exists (Z.to_nat s). split; [lia|]. apply in_seq. lia.
Qed.

(** C1: for every sensitivity s in [1,100] the threshold of a tick is the
    formula 50 - ((s-1)/99)*45, evaluated in the binary64 arithmetic of the
    program: it is the spec's formula operation for operation, its value
    is finite and within 2^-47 of the rational value of the formula, and it
    is exactly 50 at s = 1 and exactly 5 at s = 100. *)
Theorem pixelDiffThreshold_formula (s : Z) :
  1 <= s <= 100 ->
  pixelDiffThreshold (of_Z s) = threshold_spec s /\
  (exists q, to_Q (pixelDiffThreshold (of_Z s)) = Some q /\
             (Qabs (q - threshold_exact s) <= 1 # 2 ^ 47)%Q) /\
  pixelDiffThreshold (of_Z 1) = of_Z 50 /\
  pixelDiffThreshold (of_Z 100) = of_Z 5.
Proof.
  intros Hs. split; [reflexivity|]. split; [|split; vm_compute; reflexivity].
  pose proof (proj1 (forallb_forall _ _) thresholds_close s (in_sensitivities s Hs)) as H.
  unfold threshold_close in H.
  destruct (to_Q (pixelDiffThreshold (of_Z s))) as [q|]; [|discriminate].
  exists q. split; [reflexivity|]. apply Qle_bool_iff. exact H.
Qed.

Lemma pixelDiffThreshold_formula_witness :
  1 <= 50 <= 100 /\
  pixelDiffThreshold (of_Z 50) = threshold_spec 50 /\
  (exists q, to_Q (pixelDiffThreshold (of_Z 50)) = Some q /\
             (Qabs (q - threshold_exact 50) <= 1 # 2 ^ 47)%Q) /\
  pixelDiffThreshold (of_Z 1) = of_Z 50 /\
  pixelDiffThreshold (of_Z 100) = of_Z 5.
Proof.
  split; [lia|]. apply (pixelDiffThreshold_formula 50). lia.
Defined.

(* ------------------------------------------------------------------ *)
(** ** Counting and deciding *)

Lemma countChangedPixels_all thr lastData currentData :
  (forall i, (i < length currentData)%nat -> (i mod 16 = 0)%nat ->
             pixel_changed thr lastData currentData i = true) ->
  countChangedPixels thr lastData currentData = sampled (length currentData).
Proof.
  intros Hall. unfold countChangedPixels.
  change 0%nat with (16 * 0)%nat at 1.
  rewrite scan_all_changed.
  - lia.
  - intros k Hk. apply Hall; [assumption|].
    rewrite Nat.mul_comm. apply Nat.Div0.mod_mul.
  - pose proof (sampled_le (length currentData)). lia.
Qed.

Lemma sampled_pixels len p :
  Z.of_nat len = 4 * p -> Z.of_nat (sampled len) = (p + 3) / 4.
Proof.
  intros H. unfold sampled. rewrite Nat2Z.inj_div, Nat2Z.inj_add, H.
  change (Z.of_nat 15) with 15. change (Z.of_nat 16) with 16.
  pose proof (Z.div_mod (4 * p + 15) 16 ltac:(lia)).
  pose proof (Z.mod_pos_bound (4 * p + 15) 16 ltac:(lia)).
  pose proof (Z.div_mod (p + 3) 4 ltac:(lia)).
  pose proof (Z.mod_pos_bound (p + 3) 4 ltac:(lia)).
  lia.
Qed.

Lemma step_tick id f w w' :
  step (AnimationFrame id f) w = Some w' ->
  w' = detectMotionLoop f (on_browser (cancelAnimationFrame id) w).
Proof.
  cbn [step]. destruct (existsb _ _); [|discriminate]. intros [= <-]. reflexivity.
Qed.

Lemma motion_tick_dequeue id w f :
  motion_tick (on_browser (cancelAnimationFrame id) w) f = motion_tick w f.
Proof. reflexivity. Qed.

(** C3, as the code has it: when every sampled pixel of two frames of equal
    dimensions differs by more than the threshold, [changedPixels] is the
    number of sampled positions, the quotient of width * height by 4
    rounded up (width * height / 4 itself when that is an integer); and if
    the state was Idle, the tick invokes the motion-start callback exactly
    once and enters Active. *)
Theorem all_sampled_changed w f last :
  lastImageDataRef (hook w) = Some last ->
  ready (hook w) f = true ->
  width last = videoWidth f -> height last = videoHeight f ->
  0 < videoWidth f -> 0 < videoHeight f ->
  Z.of_nat (length (pixels f)) = 4 * (videoWidth f * videoHeight f) ->
  Z.of_nat (length (pixels f)) < 2 ^ 53 ->
  (forall i, (i < length (pixels f))%nat -> (i mod 16 = 0)%nat ->
     pixel_changed (pixelDiffThreshold (sensitivityRef (hook w)))
                   (data last) (pixels f) i = true) ->
  let changedPixels :=
    countChangedPixels (pixelDiffThreshold (sensitivityRef (hook w)))
                       (data last) (pixels f) in
  Z.of_nat changedPixels = (videoWidth f * videoHeight f + 3) / 4 /\
  ((videoWidth f * videoHeight f) mod 4 = 0 ->
   Z.of_nat changedPixels = videoWidth f * videoHeight f / 4) /\
  forall id w',
    isDetectingMotionRef (hook w) = false ->
    step (AnimationFrame id f) w = Some w' ->
    calls (browser w') = calls (browser w) ++ [OnMotionStart] /\
    isDetectingMotionRef (hook w') = true.
Proof.
  intros Hlast Hready _ _ Hw Hh Hlen Hbig Hall changedPixels.
  assert (Hc : Z.of_nat changedPixels = (videoWidth f * videoHeight f + 3) / 4).
  { subst changedPixels. rewrite countChangedPixels_all by assumption.
    apply sampled_pixels; assumption. }
  assert (Hp : 0 < videoWidth f * videoHeight f) by nia.
  pose proof (Z.div_mod (videoWidth f * videoHeight f + 3) 4 ltac:(lia)) as Hd.
  pose proof (Z.mod_pos_bound (videoWidth f * videoHeight f + 3) 4 ltac:(lia)) as Hm.
  split; [exact Hc|]. split.
  - intros H4. rewrite Hc.
    pose proof (Z.div_mod (videoWidth f * videoHeight f) 4 ltac:(lia)). lia.
  - intros id w' Hidle Hstep. apply step_tick in Hstep. subst w'.
    assert (Hmt : motion_tick (on_browser (cancelAnimationFrame id) w) f = true).
    { rewrite motion_tick_dequeue. unfold motion_tick. rewrite Hready, Hlast.
      cbn [andb]. unfold classify, motion_present. fold changedPixels.
      apply motion_present_all; lia. }
    rewrite (detectMotionLoop_motion _ _ Hmt).
    rewrite reschedule_browser, reschedule_hook. cbn [calls set_fresh set_animationFrames].
    cbn [isDetectingMotionRef set_requestRef].
    rewrite onMotion_calls, onMotion_active. cbn. rewrite Hidle. auto.
Qed.

Lemma all_sampled_changed_witness :
  Z.of_nat (countChangedPixels (pixelDiffThreshold (sensitivityRef (hook watching)))
                               (pixels black_2x2) (pixels white_2x2)) = (2 * 2 + 3) / 4 /\
  (forall id w',
      isDetectingMotionRef (hook watching) = false ->
      step (AnimationFrame id white_2x2) watching = Some w' ->
      calls (browser w') = calls (browser watching) ++ [OnMotionStart] /\
      isDetectingMotionRef (hook w') = true).
Proof.
  assert (Hall : forall i, (i < length (pixels white_2x2))%nat -> (i mod 16 = 0)%nat ->
            pixel_changed (pixelDiffThreshold (sensitivityRef (hook watching)))
                          (data (getImageData black_2x2)) (pixels white_2x2) i = true).
  { intros i Hi Hm. change (length (pixels white_2x2)) with 16%nat in Hi.
    rewrite Nat.mod_small in Hm by assumption. subst i. vm_compute. reflexivity. }
  pose proof (all_sampled_changed watching white_2x2 (getImageData black_2x2)
                eq_refl eq_refl eq_refl eq_refl eq_refl eq_refl eq_refl eq_refl Hall) as H.
  cbv zeta in H. destruct H as (H1 & _ & H3). split; [exact H1|exact H3].
Defined.

(** C3, as stated, fails on a 1x1 video: every sampled pixel differs (black
    to white, threshold at sensitivity 50), the loop counts the one sampled
    pixel, and width * height / 4 is a quarter (0 as an integer quotient). *)
Lemma changedPixels_exceeds_quarter :
  let last := getImageData black_1x1 in
  let f := white_1x1 in
  let thr := pixelDiffThreshold (of_Z 50) in
  (width last = videoWidth f /\ height last = videoHeight f) /\
  (forall i, (i < length (pixels f))%nat -> (i mod 16 = 0)%nat ->
             pixel_changed thr (data last) (pixels f) i = true) /\
  countChangedPixels thr (data last) (pixels f) = 1%nat /\
  option_map Qred (to_Q (totalPixelsChecked (videoWidth f) (videoHeight f)))
  = Some (1 # 4)%Q /\
  Z.of_nat (countChangedPixels thr (data last) (pixels f))
  <> videoWidth f * videoHeight f / 4.
Proof.
  cbv zeta. split; [split; reflexivity|]. split; [|split; [|split]].
  - intros i Hi Hm. change (length (pixels white_1x1)) with 4%nat in Hi.
    rewrite Nat.mod_small in Hm by lia. subst i. vm_compute. reflexivity.
  - vm_compute. reflexivity.
  - vm_compute. reflexivity.
  - vm_compute. discriminate.
Qed.

(* ------------------------------------------------------------------ *)
(** ** Frames of different dimensions *)

Lemma countChangedPixels_bounded thr lastData currentData :
  (countChangedPixels thr lastData currentData
   <= sampled (Nat.min (length lastData) (length currentData)))%nat.
Proof.
  unfold countChangedPixels. change 0%nat with (16 * 0)%nat at 1.
  etransitivity.
  - apply (scan_bounded thr lastData currentData (length lastData)).
    intros i Hi. apply pixel_changed_out_of_range; assumption.
  - lia.
Qed.

Lemma reschedule_last w :
  lastImageDataRef (hook (reschedule w)) = lastImageDataRef (hook w).
Proof. reflexivity. Qed.

(** C4, as the code has it: when the retained frame and the current frame
    have different dimensions the tick compares them all the same.  It walks
    the sampled byte offsets of the current buffer and reads the retained
    buffer at the same offsets; an offset past the end of the retained
    buffer reads undefined, gives a NaN difference and is never counted, so
    the count is bounded by the sampled offsets the two buffers share.  The
    count goes through the usual decision (a callback and a transition can
    follow), nothing is raised, and the current buffer becomes the retained
    one. *)
Theorem mismatched_frames_compared w f last :
  lastImageDataRef (hook w) = Some last ->
  ready (hook w) f = true ->
  width last <> videoWidth f \/ height last <> videoHeight f ->
  let thr := pixelDiffThreshold (sensitivityRef (hook w)) in
  let changedPixels := countChangedPixels thr (data last) (pixels f) in
  detectMotionLoop f w =
    reschedule (if motion_present changedPixels (videoWidth f) (videoHeight f)
                then onMotion (store f w) else store f w) /\
  (forall i, (length (data last) <= i)%nat ->
             pixel_changed thr (data last) (pixels f) i = false) /\
  (changedPixels <= sampled (Nat.min (length (data last)) (length (pixels f))))%nat /\
  lastImageDataRef (hook (detectMotionLoop f w)) = Some (getImageData f).
Proof.
  intros Hlast Hready _ thr changedPixels.
  assert (E : detectMotionLoop f w =
              reschedule (if motion_present changedPixels (videoWidth f) (videoHeight f)
                          then onMotion (store f w) else store f w)).
  { rewrite (detectMotionLoop_ready f w Hready), Hlast. reflexivity. }
  split; [exact E|]. split; [|split].
  - intros i Hi. apply pixel_changed_out_of_range; assumption.
  - apply countChangedPixels_bounded.
  - rewrite E, reschedule_last.
    destruct (motion_present changedPixels (videoWidth f) (videoHeight f)).
    + destruct (onMotion_other (store f w)) as (_ & _ & _ & _ & _ & _ & _ & ->).
      reflexivity.
    + reflexivity.
Qed.

Lemma mismatched_frames_compared_witness :
  let w := shrunk in
  let f := white_1x1 in
  let last := getImageData black_2x1 in
  let thr := pixelDiffThreshold (sensitivityRef (hook w)) in
  let changedPixels := countChangedPixels thr (data last) (pixels f) in
  (width last <> videoWidth f \/ height last <> videoHeight f) /\
  detectMotionLoop f w =
    reschedule (if motion_present changedPixels (videoWidth f) (videoHeight f)
                then onMotion (store f w) else store f w) /\
  (forall i, (length (data last) <= i)%nat ->
             pixel_changed thr (data last) (pixels f) i = false) /\
  (changedPixels <= sampled (Nat.min (length (data last)) (length (pixels f))))%nat /\
  lastImageDataRef (hook (detectMotionLoop f w)) = Some (getImageData f).
Proof.
  assert (Hd : width (getImageData black_2x1) <> videoWidth white_1x1 \/
               height (getImageData black_2x1) <> videoHeight white_1x1)
    by (left; vm_compute; discriminate).
  split; [exact Hd|].
  exact (mismatched_frames_compared shrunk white_1x1 (getImageData black_2x1)
           eq_refl eq_refl Hd).
Defined.

(** C4, as stated, fails when the camera goes from 2x1 to 1x1: the tick on
    the 1x1 frame, with the 2x1 frame retained and the state Idle, invokes
    the motion-start callback and enters Active. *)
Lemma resolution_change_fires :
  exists w w',
    exec (start_up ++ [AnimationFrame 5 black_2x1]) (initial (of_Z 50)) = Some w /\
    lastImageDataRef (hook w) = Some (getImageData black_2x1) /\
    width (getImageData black_2x1) <> videoWidth white_1x1 /\
    isDetectingMotionRef (hook w) = false /\
    step (AnimationFrame 6 white_1x1) w = Some w' /\
    calls (browser w') = calls (browser w) ++ [OnMotionStart] /\
    isDetectingMotionRef (hook w') = true.
Proof.
  eexists. eexists. split; [vm_compute; reflexivity|].
  split; [reflexivity|]. split; [vm_compute; discriminate|].
  split; [reflexivity|]. split; [vm_compute; reflexivity|].
  split; reflexivity.
Qed.

(* ------------------------------------------------------------------ *)
(** ** The first tick *)

(** C5: on a tick with no retained frame, the captured frame becomes the
    retained one and nothing is compared: no callback is invoked, the motion
    state and the silence timer are untouched.  (A tick that is not ready
    to capture retains nothing either.) *)
Theorem first_tick_stores w id f w' :
  lastImageDataRef (hook w) = None ->
  step (AnimationFrame id f) w = Some w' ->
  calls (browser w') = calls (browser w) /\
  isDetectingMotionRef (hook w') = isDetectingMotionRef (hook w) /\
  timers (browser w') = timers (browser w) /\
  motionTimeoutRef (hook w') = motionTimeoutRef (hook w) /\
  (ready (hook w) f = true -> lastImageDataRef (hook w') = Some (getImageData f)) /\
  (ready (hook w) f = false -> lastImageDataRef (hook w') = None).
Proof.
  intros Hnone Hstep. apply step_tick in Hstep. subst w'.
  set (w0 := on_browser (cancelAnimationFrame id) w).
  assert (Hh : hook w0 = hook w) by reflexivity.
  destruct (ready (hook w) f) eqn:Hr.
  - rewrite (detectMotionLoop_ready f w0) by (rewrite Hh; exact Hr).
    rewrite Hh, Hnone. cbn. repeat split; auto; discriminate.
  - rewrite (detectMotionLoop_not_ready f w0) by (rewrite Hh; exact Hr).
    cbn. repeat split; auto; discriminate.
Qed.

Lemma first_tick_stores_witness :
  exists w',
    step (AnimationFrame 5 black_2x2) started = Some w' /\
    calls (browser w') = calls (browser started) /\
    isDetectingMotionRef (hook w') = isDetectingMotionRef (hook started) /\
    timers (browser w') = timers (browser started) /\
    motionTimeoutRef (hook w') = motionTimeoutRef (hook started) /\
    (ready (hook started) black_2x2 = true ->
     lastImageDataRef (hook w') = Some (getImageData black_2x2)) /\
    (ready (hook started) black_2x2 = false -> lastImageDataRef (hook w') = None).
Proof.
  eexists. split; [vm_compute; reflexivity|].
  apply (first_tick_stores started 5 black_2x2); vm_compute; reflexivity.
Defined.

(* ------------------------------------------------------------------ *)
(** ** [cleanup] *)

Lemma without_all id l : (forall x, In x l -> x = id) -> without id l = [].
Proof.
  unfold without. induction l as [|x l IH]; intros H; [reflexivity|].
  cbn [filter]. rewrite (H x (or_introl eq_refl)), Nat.eqb_refl. cbn [negb].
  apply IH. intros y Hy. apply H. right. exact Hy.
Qed.

Lemma cleanup_Dead w : Inv w -> Settled w -> Dead (cleanup w).
Proof.
  intros HI (Hsus & Hraf). unfold Dead.
  rewrite (cleanup_timers w (Inv_timers_ok w HI)). rewrite cleanup_eq. cbn.
  repeat split; auto.
  destruct (requestRef (hook w)) as [r|] eqn:E.
  - apply without_all. intros x Hx. specialize (Hraf x Hx). congruence.
  - destruct (animationFrames (browser w)) as [|x l]; [reflexivity|].
    specialize (Hraf x (or_introl eq_refl)). discriminate.
Qed.

(** C6: [cleanup] run twice gives the state [cleanup] run once gives, and
    in that state no session is retained, no tick request is held, the
    stream's tracks are stopped, the held tick request and the silence
    timer are cancelled, no frame is retained and the motion state is
    Idle; from a state with no [setup] suspended, nothing at all is left
    pending in the browser. *)
Theorem cleanup_idempotent w :
  cleanup (cleanup w) = cleanup w /\
  (stream (hook (cleanup w)) = None /\ streamRef (hook (cleanup w)) = None /\
   videoRef (hook (cleanup w)) = None /\ canvasRef (hook (cleanup w)) = None /\
   requestRef (hook (cleanup w)) = None /\
   lastImageDataRef (hook (cleanup w)) = None /\
   isDetectingMotionRef (hook (cleanup w)) = false) /\
  (forall s, streamRef (hook w) = Some s ->
             ~ In s (liveStreams (browser (cleanup w)))) /\
  (forall r, requestRef (hook w) = Some r ->
             ~ In r (animationFrames (browser (cleanup w)))) /\
  (Inv w -> timers (browser (cleanup w)) = [] /\
            motionTimeoutRef (hook (cleanup w)) = None) /\
  (Inv w -> Settled w -> Dead (cleanup w)).
Proof.
  split; [|split; [|split; [|split; [|split]]]].
  - rewrite (cleanup_eq (cleanup w)). rewrite (cleanup_eq w). cbn.
    destruct (motionTimeoutRef (hook w)) as [[|n]|]; reflexivity.
  - rewrite cleanup_eq. cbn. repeat split; reflexivity.
  - intros s Hs. rewrite cleanup_eq. cbn. rewrite Hs. apply without_not_in.
  - intros r Hr. rewrite cleanup_eq. cbn. rewrite Hr. apply without_not_in.
  - intros H. split; [apply cleanup_timers, Inv_timers_ok; assumption|].
    destruct H as (_ & _ & _ & _ & Hz). rewrite cleanup_eq. cbn.
    destruct (motionTimeoutRef (hook w)) as [[|n]|]; congruence.
  - apply cleanup_Dead.
Qed.

Lemma cleanup_idempotent_witness :
  cleanup (cleanup active) = cleanup active /\
  ~ In 2%nat (liveStreams (browser (cleanup active))) /\
  ~ In 8%nat (animationFrames (browser (cleanup active))) /\
  (timers (browser (cleanup active)) = [] /\
   motionTimeoutRef (hook (cleanup active)) = None) /\
  Dead (cleanup active).
Proof.
  assert (Hs : streamRef (hook active) = Some 2%nat) by (vm_compute; reflexivity).
  assert (Hr : requestRef (hook active) = Some 8%nat) by (vm_compute; reflexivity).
  assert (Hf : animationFrames (browser active) = [8%nat]) by (vm_compute; reflexivity).
  assert (Hp : suspended (browser active) = []) by (vm_compute; reflexivity).
  assert (HS : Settled active).
  { split; [exact Hp|]. intros r Hin. rewrite Hf in Hin.
    destruct Hin as [<-|[]]. exact Hr. }
  destruct (cleanup_idempotent active) as (H1 & _ & H3 & H4 & H5 & H6).
  exact (conj H1 (conj (H3 _ Hs) (conj (H4 _ Hr)
           (conj (H5 (Inv_after _)) (H6 (Inv_after _) HS))))).
Defined.

(* ------------------------------------------------------------------ *)
(** ** The motion state machine *)

Lemma setup_catch_hook err w : hook (setup_catch err w) = hook w.
Proof. unfold setup_catch. destruct (is_abort err); [reflexivity|]. destruct err; reflexivity. Qed.

Lemma setup_acquired_motion k s w :
  isDetectingMotionRef (hook (setup_acquired k s w)) = isDetectingMotionRef (hook w) /\
  motionTimeoutRef (hook (setup_acquired k s w)) = motionTimeoutRef (hook w) /\
  timers (browser (setup_acquired k s w)) = timers (browser w) /\
  calls (browser (setup_acquired k s w)) = calls (browser w).
Proof. destruct w as [h b]. cbn. auto. Qed.

(** A tick leaves the motion state alone unless it sees motion. *)
Lemma tick_active f w :
  isDetectingMotionRef (hook w) = true ->
  isDetectingMotionRef (hook (detectMotionLoop f w)) = true.
Proof.
  intros H. destruct (detectMotionLoop_shape f w) as [->|[->|[_ ->]]].
  - exact H.
  - exact H.
  - rewrite reschedule_hook. cbn [isDetectingMotionRef set_requestRef].
    apply onMotion_active.
Qed.

(** Active ends only through the silence timer. *)
Lemma active_to_idle ev w w' :
  Inv w -> running_event ev = true ->
  isDetectingMotionRef (hook w) = true ->
  step ev w = Some w' ->
  isDetectingMotionRef (hook w') = false ->
  exists t, ev = Timeout (tid t) /\ timers (browser w) = [t] /\ delay t = 1000 /\
            set_at t + 1000 <= now (browser w) /\
            calls (browser w') = calls (browser w) ++ [OnMotionEnd].
Proof.
  intros HI Hev Hact Hstep Hidle.
  destruct ev as [dt|id f|id|k r|k r| | |s]; cbn [step running_event] in *;
    try discriminate.
  - destruct (0 <=? dt); [|discriminate]. injection Hstep as <-.
    cbn in Hidle. congruence.
  - destruct (existsb _ _); [|discriminate]. injection Hstep as <-.
    rewrite tick_active in Hidle by exact Hact. discriminate.
  - destruct (due id (browser w)) eqn:Hdue; [|discriminate]. injection Hstep as <-.
    apply due_in in Hdue as (t & Hin & Hid & Hle).
    destruct HI as (_ & Ht & _).
    destruct Ht as [E|(t' & E & _ & _ & _ & Hd)]; rewrite E in Hin; [destruct Hin|].
    destruct Hin as [->|[]]. exists t. subst id. rewrite Hd in Hle.
    repeat split; auto.
  - destruct (is_suspended k AwaitGetUserMedia (browser w)); [|discriminate].
    destruct r as [err|]; injection Hstep as <-.
    + rewrite setup_catch_hook in Hidle. cbn in Hidle. congruence.
    + cbn in Hidle. congruence.
  - destruct (is_suspended k AwaitPlay (browser w)); [|discriminate].
    destruct r as [err|]; injection Hstep as <-.
    + rewrite setup_catch_hook in Hidle. cbn in Hidle. congruence.
    + cbn in Hidle. congruence.
  - injection Hstep as <-. cbn in Hidle. congruence.
Qed.

(** A tick that sees motion: the pending timer is replaced by a fresh one. *)
Lemma motion_tick_step id f w w' :
  Inv w -> motion_tick w f = true ->
  step (AnimationFrame id f) w = Some w' ->
  calls (browser w') =
    (if isDetectingMotionRef (hook w) then calls (browser w)
     else calls (browser w) ++ [OnMotionStart]) /\
  isDetectingMotionRef (hook w') = true /\
  timers (browser w') = [mkTimer (fresh (browser w)) (now (browser w)) 1000] /\
  now (browser w') = now (browser w).
Proof.
  intros HI Hm Hstep. apply step_tick in Hstep. subst w'.
  set (w0 := on_browser (cancelAnimationFrame id) w).
  assert (Hm0 : motion_tick w0 f = true) by exact Hm.
  rewrite (detectMotionLoop_motion f w0 Hm0).
  assert (Hok : timers_ok (store f w0)).
  { apply Inv_timers_ok. apply Inv_store. apply (Inv_frame w); auto. }
  destruct (onMotion_timers _ Hok) as (E1 & _ & _).
  destruct (onMotion_other (store f w0)) as (_ & _ & _ & E4 & _).
  rewrite reschedule_browser, reschedule_hook.
  cbn [calls timers now set_fresh set_animationFrames isDetectingMotionRef set_requestRef].
  rewrite onMotion_calls, onMotion_active, E1, E4. repeat split; reflexivity.
Qed.

Lemma quiet_step ev w w' :
  quiet ev w = true -> step ev w = Some w' ->
  timers (browser w') = timers (browser w) /\
  isDetectingMotionRef (hook w') = isDetectingMotionRef (hook w) /\
  calls (browser w') = calls (browser w) /\
  now (browser w) <= now (browser w').
Proof.
  destruct ev as [dt|id f|id|k r|k r| | |s]; cbn [quiet]; try discriminate.
  - intros _. cbn [step]. destruct (Z.leb_spec 0 dt); [|discriminate].
    intros [= <-]. cbn. repeat split; auto; lia.
  - intros Hq Hstep. apply step_tick in Hstep. subst w'.
    apply negb_true_iff in Hq.
    destruct (detectMotionLoop_still f (on_browser (cancelAnimationFrame id) w) Hq)
      as [-> | ->]; cbn; repeat split; auto; lia.
  - intros _ [= <-]. cbn. repeat split; auto; lia.
Qed.

Lemma exec_quiet_exec es : forall w w', exec_quiet es w = Some w' -> exec es w = Some w'.
Proof.
  induction es as [|ev es IH]; intros w w'; cbn [exec_quiet exec]; [auto|].
  destruct (quiet ev w); [|discriminate].
  destruct (step ev w); [apply IH|discriminate].
Qed.

Lemma exec_quiet_keeps es : forall w w',
  exec_quiet es w = Some w' ->
  timers (browser w') = timers (browser w) /\
  isDetectingMotionRef (hook w') = isDetectingMotionRef (hook w) /\
  calls (browser w') = calls (browser w) /\
  now (browser w) <= now (browser w').
Proof.
  induction es as [|ev es IH]; intros w w'; cbn [exec_quiet].
  - intros [= <-]. repeat split; auto; lia.
  - destruct (quiet ev w) eqn:Hq; [|discriminate].
    destruct (step ev w) as [w1|] eqn:Hs; [|discriminate].
    intros H. destruct (quiet_step ev w w1 Hq Hs) as (A1 & A2 & A3 & A4).
    destruct (IH w1 w' H) as (B1 & B2 & B3 & B4).
    repeat split; try congruence. lia.
Qed.

(** C2: while Active, a tick classified "motion present" invokes no
    callback and leaves exactly one pending timer, scheduled at that tick
    for 1000 ms (the timer that was pending is gone); Active turns Idle only
    through an event of the running engine that is the expiry of the pending
    timer, at least 1000 ms after it was set, with the motion-end callback
    invoked exactly once; and after a tick that saw motion, however many
    ticks without motion and however much time follow, the first return to
    Idle is that expiry, no sooner than 1000 ms after the tick. *)
Theorem silence_timer_hysteresis w :
  Inv w ->
  (forall id f w',
      isDetectingMotionRef (hook w) = true ->
      motion_tick w f = true ->
      step (AnimationFrame id f) w = Some w' ->
      calls (browser w') = calls (browser w) /\
      isDetectingMotionRef (hook w') = true /\
      timers (browser w') = [mkTimer (fresh (browser w)) (now (browser w)) 1000] /\
      (forall t, In t (timers (browser w)) -> ~ In t (timers (browser w')))) /\
  (forall ev w',
      running_event ev = true ->
      isDetectingMotionRef (hook w) = true ->
      step ev w = Some w' ->
      isDetectingMotionRef (hook w') = false ->
      exists t, ev = Timeout (tid t) /\ timers (browser w) = [t] /\
                set_at t + 1000 <= now (browser w) /\
                calls (browser w') = calls (browser w) ++ [OnMotionEnd]) /\
  (forall id f w1 es w2 ev w3,
      motion_tick w f = true ->
      step (AnimationFrame id f) w = Some w1 ->
      exec_quiet es w1 = Some w2 ->
      running_event ev = true ->
      step ev w2 = Some w3 ->
      isDetectingMotionRef (hook w3) = false ->
      (exists n, ev = Timeout n) /\
      now (browser w) + 1000 <= now (browser w2) /\
      calls (browser w3) = calls (browser w1) ++ [OnMotionEnd]).
Proof.
  intros HI. split; [|split].
  - intros id f w' Hact Hm Hstep.
    destruct (motion_tick_step id f w w' HI Hm Hstep) as (E1 & E2 & E3 & _).
    rewrite Hact in E1. repeat split; auto.
    intros t Hin. rewrite E3. intros [Hnew|[]].
    destruct HI as (_ & Ht & _).
    destruct Ht as [E|(t' & E & _ & _ & Hlt & _)]; rewrite E in Hin; [destruct Hin|].
    destruct Hin as [Hold|[]]. subst t' t. cbn in Hlt. lia.
  - intros ev w' Hev Hact Hstep Hidle.
    destruct (active_to_idle ev w w' HI Hev Hact Hstep Hidle) as (t & A & B & _ & C & D).
    exists t. auto.
  - intros id f w1 es w2 ev w3 Hm Hstep Hq Hev Hstep' Hidle.
    destruct (motion_tick_step id f w w1 HI Hm Hstep) as (E1 & E2 & E3 & E4).
    destruct (exec_quiet_keeps es w1 w2 Hq) as (K1 & K2 & K3 & K4).
    assert (HI2 : Inv w2).
    { eapply exec_Inv; [|apply exec_quiet_exec; exact Hq].
      eapply step_Inv; eassumption. }
    assert (Hact2 : isDetectingMotionRef (hook w2) = true) by congruence.
    destruct (active_to_idle ev w2 w3 HI2 Hev Hact2 Hstep' Hidle)
      as (t & A & B & _ & C & D).
    rewrite K1, E3 in B. injection B as <-. cbn in C.
    split; [eexists; exact A|]. split; [lia|]. rewrite D, K3. reflexivity.
Qed.

Lemma silence_timer_hysteresis_witness :
  step (AnimationFrame 6 white_2x2) watching = Some active /\
  exec_quiet quiet_second active = Some silent /\
  step (Timeout 7) silent = Some idle_again /\
  now (browser watching) + 1000 <= now (browser silent) /\
  calls (browser idle_again) = calls (browser active) ++ [OnMotionEnd].
Proof.
  assert (H1 : step (AnimationFrame 6 white_2x2) watching = Some active)
    by (vm_compute; reflexivity).
  assert (H2 : exec_quiet quiet_second active = Some silent)
    by (vm_compute; reflexivity).
  assert (H3 : step (Timeout 7) silent = Some idle_again)
    by (vm_compute; reflexivity).
  assert (H0 : motion_tick watching white_2x2 = true) by (vm_compute; reflexivity).
  assert (H6 : isDetectingMotionRef (hook idle_again) = false)
    by (vm_compute; reflexivity).
  destruct (silence_timer_hysteresis watching (Inv_after _)) as (_ & _ & H).
  destruct (H 6%nat white_2x2 active quiet_second silent (Timeout 7) idle_again
              H0 H1 H2 eq_refl H3 H6) as (_ & H4 & H5).
  exact (conj H1 (conj H2 (conj H3 (conj H4 H5)))).
Defined.

(* ------------------------------------------------------------------ *)
(** ** Re-enabling *)

Lemma tick_calls f w :
  calls (browser (detectMotionLoop f w)) = calls (browser w) \/
  calls (browser (detectMotionLoop f w)) = calls (browser w) ++ [OnMotionStart].
Proof.
  destruct (detectMotionLoop_shape f w) as [->|[->|[_ ->]]]; auto.
  rewrite reschedule_browser. cbn [calls set_fresh set_animationFrames].
  rewrite onMotion_calls. destruct (isDetectingMotionRef (hook (store f w))); auto.
Qed.

(** A tick keeps the session and leaves exactly the request it makes. *)
Lemma tick_session f w :
  let w' := detectMotionLoop f w in
  streamRef (hook w') = streamRef (hook w) /\
  stream (hook w') = stream (hook w) /\
  liveStreams (browser w') = liveStreams (browser w) /\
  suspended (browser w') = suspended (browser w) /\
  exists r, requestRef (hook w') = Some r /\
            animationFrames (browser w') = animationFrames (browser w) ++ [r].
Proof.
  cbv zeta. destruct (detectMotionLoop_shape f w) as [->|[->|[_ ->]]].
  - cbn. repeat split; auto. eexists; split; reflexivity.
  - cbn. repeat split; auto. eexists; split; reflexivity.
  - rewrite reschedule_browser, reschedule_hook.
    destruct (onMotion_other (store f w)) as (E1 & E2 & E3 & _ & E5 & E6 & _).
    cbn [streamRef stream liveStreams suspended requestRef animationFrames
         set_fresh set_animationFrames set_requestRef].
    rewrite E1, E2, E3, E5, E6. repeat split; auto. eexists; split; reflexivity.
Qed.

Lemma existsb_single id r : existsb (Nat.eqb id) [r] = true -> id = r.
Proof. cbn. rewrite orb_false_r. apply Nat.eqb_eq. Qed.

Lemma Running_tick id f w w' :
  Running w -> step (AnimationFrame id f) w = Some w' ->
  requestRef (hook w) = Some id /\ Running w' /\
  streamRef (hook w') = streamRef (hook w) /\
  (calls (browser w') = calls (browser w) \/
   calls (browser w') = calls (browser w) ++ [OnMotionStart]).
Proof.
  intros (Hs & s & r & H1 & H2 & H3 & H4 & H5) Hstep.
  cbn [step] in Hstep. rewrite H5 in Hstep.
  destruct (existsb (Nat.eqb id) [r]) eqn:E; [|discriminate].
  apply existsb_single in E. subst r. injection Hstep as <-.
  set (w0 := on_browser (cancelAnimationFrame id) w).
  destruct (tick_session f w0) as (T1 & T2 & T3 & T4 & r' & T5 & T6).
  assert (E0 : animationFrames (browser w0) = []).
  { subst w0. cbn. rewrite H5. apply without_single. }
  rewrite E0 in T6. split; [exact H4|]. split; [|split].
  - split; [rewrite T4; exact Hs|]. exists s, r'.
    rewrite T1, T2, T3. repeat split; assumption.
  - exact T1.
  - apply (tick_calls f w0).
Qed.

Lemma setup_Acquiring w s0 :
  Inv w -> Running w -> streamRef (hook w) = Some s0 ->
  Acquiring s0 (setup w) /\
  suspended (browser (setup w)) = [(fresh (browser w), AwaitGetUserMedia)].
Proof.
  intros HI (Hs & s & r & H1 & H2 & H3 & H4 & H5) Hs0.
  rewrite H1 in Hs0. injection Hs0 as ->.
  pose proof (cleanup_timers w (Inv_timers_ok w HI)) as Ht.
  destruct HI as (_ & _ & _ & Hl & _).
  assert (Hlt : (s0 < fresh (browser w))%nat) by (apply Hl; rewrite H3; left; reflexivity).
  unfold setup, Acquiring.
  cbn [on_browser browser hook fresh suspended liveStreams animationFrames timers
       set_fresh set_suspended].
  rewrite Ht. rewrite cleanup_eq. cbn. rewrite H1, H4, H3, H5, Hs, !without_single.
  repeat split; auto. eexists; reflexivity.
Qed.

Lemma is_suspended_single k a k' a' b :
  suspended b = [(k', a')] ->
  is_suspended k a b = true -> k = k' /\ a = a'.
Proof.
  unfold is_suspended. intros ->. cbn. rewrite orb_false_r.
  intros H. apply andb_prop in H as [H1 H2]. apply Nat.eqb_eq in H1.
  split; [auto|]. destruct a, a'; cbn in H2; congruence.
Qed.

Lemma is_suspended_nil k a b : suspended b = [] -> is_suspended k a b = false.
Proof. unfold is_suspended. intros ->. reflexivity. Qed.

Lemma due_nil id b : timers b = [] -> due id b = false.
Proof. unfold due. intros ->. reflexivity. Qed.

(** One [setup] runs through its phases; nothing else gets started. *)
Lemma phase_step s0 ev w w' :
  smooth ev = true ->
  Acquiring s0 w \/ Starting s0 w \/ Restarted s0 w ->
  step ev w = Some w' ->
  Acquiring s0 w' \/ Starting s0 w' \/ Restarted s0 w'.
Proof.
  intros Hev [HA|[HS|HR]] Hstep.
  - (* the camera request is pending *)
    destruct HA as (Hlt & (k & Hsus) & Hl & Hf & Ht & Hr).
    destruct ev as [dt|id f|id|k' r|k' r| | |s]; cbn [step smooth] in *;
      try discriminate.
    + destruct (0 <=? dt); [|discriminate]. injection Hstep as <-.
      left. unfold Acquiring. cbn. repeat split; eauto.
    + rewrite Hf in Hstep. discriminate.
    + rewrite (due_nil id _ Ht) in Hstep. discriminate.
    + destruct (is_suspended k' AwaitGetUserMedia (browser w)) eqn:E; [|discriminate].
      destruct (is_suspended_single _ _ _ _ _ Hsus E) as [-> _].
      destruct r; [discriminate|]. injection Hstep as <-.
      right; left. unfold Starting. cbn. rewrite Hsus, Hl, Hf, Ht. cbn.
      rewrite Nat.eqb_refl. cbn. repeat split; eauto.
      exists (fresh (browser w)). repeat split; auto. lia.
    + destruct (is_suspended k' AwaitPlay (browser w)) eqn:E; [|discriminate].
      destruct (is_suspended_single _ _ _ _ _ Hsus E) as [_ [=]].
    + injection Hstep as <-. left. unfold Acquiring. cbn. repeat split; eauto.
  - (* playback is starting *)
    destruct HS as ((k & Hsus) & Hf & Ht & s & Hne & H1 & H2 & H3).
    destruct ev as [dt|id f|id|k' r|k' r| | |s']; cbn [step smooth] in *;
      try discriminate.
    + destruct (0 <=? dt); [|discriminate]. injection Hstep as <-.
      right; left. unfold Starting. cbn.
      repeat split; eauto; try (exists s; repeat split; auto).
    + rewrite Hf in Hstep. discriminate.
    + rewrite (due_nil id _ Ht) in Hstep. discriminate.
    + destruct (is_suspended k' AwaitGetUserMedia (browser w)) eqn:E; [|discriminate].
      destruct (is_suspended_single _ _ _ _ _ Hsus E) as [_ [=]].
    + destruct (is_suspended k' AwaitPlay (browser w)) eqn:E; [|discriminate].
      destruct (is_suspended_single _ _ _ _ _ Hsus E) as [-> _].
      destruct r; [discriminate|]. injection Hstep as <-.
      right; right. unfold Restarted, Running. cbn. rewrite Hsus, Hf, H1, H2, H3. cbn.
      rewrite Nat.eqb_refl. cbn. split; [|congruence].
      split; [reflexivity|]. exists s, (fresh (browser w)). repeat split; reflexivity.
    + injection Hstep as <-. right; left. unfold Starting. cbn.
      repeat split; eauto; try (exists s; repeat split; auto).
  - (* the loop runs *)
    destruct HR as (HR & Hne). right; right.
    destruct ev as [dt|id f|id|k' r|k' r| | |s']; cbn [smooth] in *;
      try discriminate.
    + cbn [step] in Hstep. destruct (0 <=? dt); [|discriminate]. injection Hstep as <-.
      split; [|exact Hne]. exact HR.
    + destruct (Running_tick id f w w' HR Hstep) as (_ & HR' & E & _).
      split; [exact HR'|]. rewrite E. exact Hne.
    + cbn [step] in Hstep. destruct (due id (browser w)); [|discriminate].
      injection Hstep as <-. split; [|exact Hne]. exact HR.
    + cbn [step] in Hstep. destruct HR as (Hsus & _).
      rewrite (is_suspended_nil _ _ _ Hsus) in Hstep. discriminate.
    + cbn [step] in Hstep. destruct HR as (Hsus & _).
      rewrite (is_suspended_nil _ _ _ Hsus) in Hstep. discriminate.
    + cbn [step] in Hstep. injection Hstep as <-. split; [|exact Hne]. exact HR.
Qed.

Lemma phase_exec s0 es : forall w w',
  forallb smooth es = true ->
  Acquiring s0 w \/ Starting s0 w \/ Restarted s0 w ->
  exec es w = Some w' ->
  Acquiring s0 w' \/ Starting s0 w' \/ Restarted s0 w'.
Proof.
  induction es as [|ev es IH]; intros w w' Hsm Hph; cbn [exec].
  - intros [= <-]. exact Hph.
  - cbn [forallb] in Hsm. apply andb_prop in Hsm as [H1 H2].
    destruct (step ev w) as [w1|] eqn:E; [|discriminate].
    apply IH; [exact H2|]. eapply phase_step; eassumption.
Qed.

(** Re-enabling a running engine (no [setup] suspended): [setup] first
    runs the whole teardown (the previous stream's tracks stopped, the tick
    request and the timer cancelled) and only then requests the camera;
    once that [setup] has completed, there is exactly one live stream, a
    new one that the hook holds, and exactly one pending tick request, the
    one [requestRef] names; each tick then answers that one request,
    invokes at most one callback and leaves exactly one request again. *)
Theorem reenable_single_session w s0 :
  Inv w -> Running w -> streamRef (hook w) = Some s0 ->
  (liveStreams (browser (setup w)) = [] /\
   animationFrames (browser (setup w)) = [] /\
   timers (browser (setup w)) = [] /\
   streamRef (hook (setup w)) = None /\
   suspended (browser (setup w)) = [(fresh (browser w), AwaitGetUserMedia)]) /\
  forall es w2,
    forallb smooth es = true ->
    exec es (setup w) = Some w2 ->
    suspended (browser w2) = [] ->
    Running w2 /\ streamRef (hook w2) <> Some s0 /\
    ~ In s0 (liveStreams (browser w2)) /\
    forall id f w3,
      step (AnimationFrame id f) w2 = Some w3 ->
      requestRef (hook w2) = Some id /\ Running w3 /\
      (calls (browser w3) = calls (browser w2) \/
       calls (browser w3) = calls (browser w2) ++ [OnMotionStart]).
Proof.
  intros HI HR Hs0.
  destruct (setup_Acquiring w s0 HI HR Hs0) as (HA & Hsus).
  split.
  - destruct HA as (_ & _ & Hl & Hf & Ht & Hr). auto.
  - intros es w2 Hsm Hex Hdone.
    destruct (phase_exec s0 es (setup w) w2 Hsm (or_introl HA) Hex)
      as [(_ & (k & E) & _)|[((k & E) & _)|(HR2 & Hne)]];
      try (rewrite E in Hdone; discriminate).
    split; [exact HR2|]. split; [exact Hne|]. split.
    + destruct HR2 as (_ & s & r & H1 & _ & H3 & _). rewrite H3. intros [->|[]].
      congruence.
    + intros id f w3 Hstep.
      destruct (Running_tick id f w2 w3 HR2 Hstep) as (A & B & _ & C). auto.
Qed.

Lemma reenable_single_session_witness :
  exec re_enable (setup started) = Some restarted /\
  Running restarted /\ streamRef (hook restarted) <> Some 2%nat /\
  ~ In 2%nat (liveStreams (browser restarted)).
Proof.
  assert (HR : Running started).
  { split; [reflexivity|]. exists 2%nat, 5%nat. repeat split; reflexivity. }
  assert (Hx : exec re_enable (setup started) = Some restarted)
    by (vm_compute; reflexivity).
  destruct (reenable_single_session started 2%nat (Inv_after _) HR eq_refl)
    as (_ & H).
  destruct (H re_enable restarted eq_refl Hx eq_refl) as (H1 & H2 & H3 & _).
  exact (conj Hx (conj H1 (conj H2 H3))).
Defined.

(** C7 fails on the code when the hook is enabled again while the camera
    request of the first [setup] is still pending: the teardown of the
    second [setup] finds every ref empty and cancels nothing, both requests
    are granted and both continuations run.  When both setups have
    completed, two streams are live, of which the hook holds only the
    second, and two tick requests are pending, of which [requestRef] names
    only the second: not one session and one loop.  A later [cleanup]
    stops and cancels only what the refs name; the first stream stays live
    and the first loop keeps its request. *)
Theorem reenable_during_acquisition :
  suspended (browser (after [Enable])) = [(1%nat, AwaitGetUserMedia)] /\
  step Enable (after [Enable]) = Some enabled_twice /\
  forallb smooth both_granted = true /\
  exec both_granted enabled_twice = Some doubled /\
  suspended (browser doubled) = [] /\
  (liveStreams (browser doubled) = [3%nat; 6%nat] /\
   streamRef (hook doubled) = Some 6%nat) /\
  (animationFrames (browser doubled) = [9%nat; 10%nat] /\
   requestRef (hook doubled) = Some 10%nat) /\
  ~ Running doubled /\
  liveStreams (browser (cleanup doubled)) = [3%nat] /\
  animationFrames (browser (cleanup doubled)) = [9%nat].
Proof.
  assert (Hl : liveStreams (browser doubled) = [3%nat; 6%nat])
    by (vm_compute; reflexivity).
  split; [vm_compute; reflexivity|]. split; [vm_compute; reflexivity|].
  split; [vm_compute; reflexivity|]. split; [vm_compute; reflexivity|].
  split; [vm_compute; reflexivity|].
  split; [split; [exact Hl|vm_compute; reflexivity]|].
  split; [split; vm_compute; reflexivity|].
  split; [|split; vm_compute; reflexivity].
  intros (_ & s & r & _ & _ & H & _). rewrite Hl in H. discriminate.
Qed.

(* ------------------------------------------------------------------ *)
(** ** After the teardown *)

Lemma cleanup_calls w : calls (browser (cleanup w)) = calls (browser w).
Proof. rewrite cleanup_eq. reflexivity. Qed.

Lemma Dead_cleanup w : Dead w -> Dead (cleanup w).
Proof.
  intros (H1 & H2 & H3). unfold Dead. rewrite cleanup_eq. cbn.
  rewrite H1, H2, H3. repeat split.
  - destruct (requestRef (hook w)); reflexivity.
  - destruct (motionTimeoutRef (hook w)) as [[|n]|]; reflexivity.
Qed.

(** With nothing pending, nothing but a new [setup] makes the hook act. *)
Lemma Dead_step ev w w' :
  Dead w -> no_enable ev = true -> step ev w = Some w' ->
  Dead w' /\ calls (browser w') = calls (browser w).
Proof.
  intros HD Hev Hstep. pose proof HD as (H1 & H2 & H3).
  destruct ev as [dt|id f|id|k r|k r| | |s]; cbn [step no_enable] in *;
    try discriminate.
  - destruct (0 <=? dt); [|discriminate]. injection Hstep as <-.
    split; [exact HD|reflexivity].
  - rewrite H1 in Hstep. discriminate.
  - rewrite (due_nil id _ H2) in Hstep. discriminate.
  - rewrite (is_suspended_nil _ _ _ H3) in Hstep. discriminate.
  - rewrite (is_suspended_nil _ _ _ H3) in Hstep. discriminate.
  - injection Hstep as <-. split; [apply Dead_cleanup; exact HD|apply cleanup_calls].
  - injection Hstep as <-. split; [exact HD|reflexivity].
Qed.

Lemma Dead_exec es : forall w w',
  Dead w -> forallb no_enable es = true -> exec es w = Some w' ->
  Dead w' /\ calls (browser w') = calls (browser w).
Proof.
  induction es as [|ev es IH]; intros w w' HD Hne; cbn [exec].
  - intros [= <-]. auto.
  - cbn [forallb] in Hne. apply andb_prop in Hne as [H1 H2].
    destruct (step ev w) as [w1|] eqn:E; [|discriminate]. intros Hex.
    destruct (Dead_step ev w w1 HD H1 E) as (HD1 & E1).
    destruct (IH w1 w' HD1 H2 Hex) as (HD' & E'). split; [exact HD'|congruence].
Qed.

(** With no [setup] suspended, [cleanup] silences the hook for good. *)
Lemma disable_quiesces w es w' :
  Inv w -> Settled w -> forallb no_enable es = true ->
  exec es (cleanup w) = Some w' ->
  calls (browser w') = calls (browser w).
Proof.
  intros HI HS Hne Hex.
  destruct (Dead_exec es (cleanup w) w' (cleanup_Dead w HI HS) Hne Hex) as (_ & E).
  rewrite E. apply cleanup_calls.
Qed.

(** C8 fails on the code when the camera request is still pending: the
    hook is enabled and disabled at once; the request of the abandoned
    [setup] is then granted, the stream is opened and kept, playback and
    the tick loop start, and the second frame invokes the motion-start
    callback, all after [cleanup] has returned and with no further
    [setup]. *)
Theorem disable_during_acquisition :
  suspended (browser (after [Enable])) = [(1%nat, AwaitGetUserMedia)] /\
  step Disable (after [Enable]) = Some disabled_early /\
  calls (browser disabled_early) = [] /\
  forallb no_enable granted_late = true /\
  exec granted_late disabled_early = Some haunted /\
  calls (browser haunted) = [OnMotionStart] /\
  liveStreams (browser haunted) = [2%nat] /\
  animationFrames (browser haunted) = [8%nat].
Proof.
  split; [vm_compute; reflexivity|]. split; [vm_compute; reflexivity|].
  split; [vm_compute; reflexivity|]. split; [vm_compute; reflexivity|].
  split; [vm_compute; reflexivity|]. split; [vm_compute; reflexivity|].
  split; vm_compute; reflexivity.
Qed.

(* ------------------------------------------------------------------ *)
(** ** Acquisition failure *)

Lemma setup_catch_browser err w :
  browser (setup_catch err w) =
  set_calls (calls (browser w) ++ (if is_abort err then [] else [OnError (reported err)]))
            (browser w).
Proof.
  unfold setup_catch. destruct (is_abort err) eqn:E.
  - rewrite app_nil_r. destruct w as [h []]. reflexivity.
  - destruct err; reflexivity.
Qed.





(* ------------------------------------------------------------------ *)
(** ** Starts and ends *)

Lemma starts_app w c :
  length (filter is_start (calls (browser w) ++ [c]))
  = (starts w + (if is_start c then 1 else 0))%nat.
Proof.
  unfold starts. rewrite filter_app, length_app. cbn. destruct (is_start c); reflexivity.
Qed.

Lemma ends_app w c :
  length (filter is_end (calls (browser w) ++ [c]))
  = (ends w + (if is_end c then 1 else 0))%nat.
Proof.
  unfold ends. rewrite filter_app, length_app. cbn. destruct (is_end c); reflexivity.
Qed.

Lemma Balanced_frame d w w' :
  Balanced d w ->
  timers (browser w') = timers (browser w) ->
  isDetectingMotionRef (hook w') = isDetectingMotionRef (hook w) ->
  calls (browser w') = calls (browser w) ->
  Balanced d w'.
Proof.
  intros (H1 & H2) E1 E2 E3. unfold Balanced, starts, ends in *.
  rewrite E1, E2, E3. auto.
Qed.

Lemma Balanced_error d err w :
  Balanced d w -> Balanced d (setup_catch err w).
Proof.
  intros (H1 & H2). unfold Balanced, starts, ends in *.
  rewrite setup_catch_hook, setup_catch_browser.
  cbn [timers calls set_calls]. split; [exact H1|].
  rewrite !filter_app, !length_app.
  destruct (is_abort err); cbn; lia.
Qed.

Lemma Balanced_cleanup d w :
  Inv w -> Balanced d w ->
  Balanced (d + (if isDetectingMotionRef (hook w) then 1 else 0)) (cleanup w).
Proof.
  intros HI (H1 & H2). unfold Balanced, starts, ends in *.
  rewrite (cleanup_timers w (Inv_timers_ok w HI)), cleanup_calls.
  rewrite cleanup_eq. cbn [hook isDetectingMotionRef].
  split; [congruence|]. lia.
Qed.

Lemma Balanced_weaken d d' w : (d' <= d)%nat -> Balanced d w -> Balanced d' w.
Proof. intros Hd (H1 & H2). split; [exact H1|lia]. Qed.

Lemma Balanced_detectMotionLoop d f w :
  Inv w -> Balanced d w -> Balanced d (detectMotionLoop f w).
Proof.
  intros HI HB. destruct (detectMotionLoop_shape f w) as [->|[->|[_ ->]]].
  - apply (Balanced_frame d w); auto.
  - apply (Balanced_frame d w); auto.
  - assert (Hok : timers_ok (store f w)) by (apply Inv_timers_ok, Inv_store; exact HI).
    destruct (onMotion_timers _ Hok) as (E1 & _ & _).
    destruct HB as (H1 & H2). unfold Balanced, starts, ends in *.
    rewrite reschedule_browser, reschedule_hook.
    cbn [timers calls set_fresh set_animationFrames isDetectingMotionRef set_requestRef].
    rewrite onMotion_active, onMotion_calls. split; [reflexivity|].
    change (isDetectingMotionRef (hook (store f w))) with (isDetectingMotionRef (hook w)).
    change (calls (browser (store f w))) with (calls (browser w)).
    destruct (isDetectingMotionRef (hook w)); [exact H2|].
    rewrite !filter_app, !length_app. cbn. lia.
Qed.

Lemma Balanced_step d ev w w' :
  Inv w -> Balanced d w -> step ev w = Some w' -> Balanced d w'.
Proof.
  intros HI HB. destruct ev as [dt|id f|id|k r|k r| | |s]; cbn [step].
  - destruct (0 <=? dt); [|discriminate]. intros [= <-].
    apply (Balanced_frame d w); auto.
  - destruct (existsb _ _); [|discriminate]. intros [= <-].
    apply Balanced_detectMotionLoop.
    + apply (Inv_frame w); auto.
    + apply (Balanced_frame d w); auto.
  - destruct (due id (browser w)) eqn:Hdue; [|discriminate]. intros [= <-].
    apply due_in in Hdue as (t & Hin & Hid & _).
    destruct HI as (_ & Ht & _). destruct HB as (H1 & H2).
    assert (Hne : timers (browser w) <> []) by (intros E; rewrite E in Hin; destruct Hin).
    specialize (H1 Hne).
    assert (Hc : filter (fun t0 => negb (Nat.eqb (tid t0) id)) (timers (browser w)) = []).
    { destruct Ht as [E|(t' & E & _)]; rewrite E in *; [destruct Hin|].
      destruct Hin as [->|[]]. cbn. rewrite Hid, Nat.eqb_refl. reflexivity. }
    unfold Balanced, starts, ends in *. rewrite H1 in H2.
    cbn. rewrite Hc. split; [congruence|].
    rewrite !filter_app, !length_app. cbn. lia.
  - destruct (is_suspended k AwaitGetUserMedia (browser w)); [|discriminate].
    destruct r as [err|]; intros [= <-].
    + apply Balanced_error. apply (Balanced_frame d w); auto.
    + apply (Balanced_frame d w); auto.
  - destruct (is_suspended k AwaitPlay (browser w)); [|discriminate].
    destruct r as [err|]; intros [= <-].
    + apply Balanced_error. apply (Balanced_frame d w); auto.
    + apply (Balanced_frame d w); auto.
  - intros [= <-]. apply (Balanced_frame d (cleanup w)); auto.
    eapply Balanced_weaken; [|apply Balanced_cleanup; eassumption]. lia.
  - intros [= <-].
    eapply Balanced_weaken; [|apply Balanced_cleanup; eassumption]. lia.
  - intros [= <-]. apply (Balanced_frame d w); auto.
Qed.

Lemma Balanced_exec d es : forall w w',
  Inv w -> Balanced d w -> exec es w = Some w' -> Balanced d w'.
Proof.
  induction es as [|ev es IH]; intros w w' HI HB; cbn [exec].
  - intros [= <-]. exact HB.
  - destruct (step ev w) as [w1|] eqn:E; [|discriminate].
    apply IH; [eapply step_Inv|eapply Balanced_step]; eassumption.
Qed.

Lemma Balanced_initial s : Balanced 0 (initial s).
Proof. split; [intros H; contradiction H; reflexivity|cbn; lia]. Qed.

(** C10: the teardown invokes no callback.  Run while Active, it cancels
    the silence timer and resets the state to Idle without invoking the
    motion-end callback; the motion-start of that Active phase then stays
    unanswered in every continuation whatsoever: the log always holds more
    motion-starts than motion-ends.  Such a state is reached by enabling,
    granting the camera and showing a black and then a white frame. *)
Theorem cleanup_silent :
  (forall w,
      calls (browser (cleanup w)) = calls (browser w) /\
      isDetectingMotionRef (hook (cleanup w)) = false /\
      (Inv w -> timers (browser (cleanup w)) = [])) /\
  (forall s es0 w es w',
      exec es0 (initial s) = Some w ->
      isDetectingMotionRef (hook w) = true ->
      exec es (cleanup w) = Some w' ->
      (ends w' < starts w')%nat) /\
  (exec (start_up ++ [AnimationFrame 5 black_2x2; AnimationFrame 6 white_2x2])
        (initial (of_Z 50)) = Some active /\
   isDetectingMotionRef (hook active) = true /\
   timers (browser active) = [mkTimer 7 0 1000] /\
   calls (browser (cleanup active)) = [OnMotionStart]).
Proof.
  split; [|split].
  - intros w. split; [apply cleanup_calls|]. split.
    + rewrite cleanup_eq. reflexivity.
    + intros HI. apply cleanup_timers, Inv_timers_ok. exact HI.
  - intros s es0 w es w' Hex0 Hact Hex.
    assert (HI : Inv w) by (eapply exec_Inv; [apply Inv_initial|exact Hex0]).
    assert (HB : Balanced 0 w)
      by (eapply Balanced_exec; [apply Inv_initial|apply Balanced_initial|exact Hex0]).
    pose proof (Balanced_cleanup 0 w HI HB) as HB1. rewrite Hact in HB1.
    pose proof (Balanced_exec _ es (cleanup w) w' (Inv_cleanup w HI) HB1 Hex) as (_ & H).
    cbn in H. lia.
  - split; [vm_compute; reflexivity|]. split; [vm_compute; reflexivity|].
    split; vm_compute; reflexivity.
Qed.

Lemma cleanup_silent_witness :
  exec [Elapse 5000; Enable; GetUserMediaSettled 9 None]
       (cleanup active) <> None /\
  forall w',
    exec [Elapse 5000; Enable; GetUserMediaSettled 9 None] (cleanup active) = Some w' ->
    (ends w' < starts w')%nat.
Proof.
  split; [vm_compute; discriminate|].
  destruct cleanup_silent as (_ & H & (Hx & Ha & _)).
  intros w' Hex.
  exact (H (of_Z 50) _ active _ w' Hx Ha Hex).
Defined.

(* ------------------------------------------------------------------ *)
(** ** More on one tick *)

(** X1: a tick that is not ready (no video or canvas element yet, video
    paused or ended or short of data, no 2d context, a zero dimension)
    defers: it retains no frame, compares nothing, invokes no callback,
    touches neither the timer nor the session, and requests exactly one
    next frame, which [requestRef] names. *)
Theorem tick_not_ready_defers id f w w' :
  ready (hook w) f = false ->
  step (AnimationFrame id f) w = Some w' ->
  hook w' = set_requestRef (Some (fresh (browser w))) (hook w) /\
  calls (browser w') = calls (browser w) /\
  timers (browser w') = timers (browser w) /\
  liveStreams (browser w') = liveStreams (browser w) /\
  animationFrames (browser w')
  = without id (animationFrames (browser w)) ++ [fresh (browser w)].
Proof.
  intros Hr Hstep. apply step_tick in Hstep. subst w'.
  rewrite (detectMotionLoop_not_ready f (on_browser (cancelAnimationFrame id) w))
    by exact Hr.
  repeat split; reflexivity.
Qed.

Lemma tick_not_ready_defers_witness :
  let paused_frame := mkFrame true false 4 true 2 2 (pixels white_2x2) in
  exists w',
    step (AnimationFrame 6 paused_frame) watching = Some w' /\
    calls (browser w') = calls (browser watching) /\
    lastImageDataRef (hook w') = lastImageDataRef (hook watching) /\
    animationFrames (browser w') = [7%nat].
Proof.
  cbv zeta.
  assert (Hs : step (AnimationFrame 6 (mkFrame true false 4 true 2 2 (pixels white_2x2)))
                    watching
               = Some (reschedule (on_browser (cancelAnimationFrame 6) watching)))
    by (vm_compute; reflexivity).
  assert (Hr : ready (hook watching) (mkFrame true false 4 true 2 2 (pixels white_2x2))
               = false) by (vm_compute; reflexivity).
  eexists. split; [exact Hs|].
  destruct (tick_not_ready_defers 6 _ watching _ Hr Hs) as (H1 & H2 & _ & _ & H5).
  split; [exact H2|]. split; [rewrite H1; reflexivity|].
  rewrite H5. vm_compute. reflexivity.
Defined.

Lemma abs_sub_self x : abs (sub x x) = S754_zero false \/ abs (sub x x) = NaN.
Proof.
  destruct x as [s|s| |s m e].
  - left. destruct s; reflexivity.
  - right. destruct s; reflexivity.
  - right. reflexivity.
  - left. unfold sub, SFsub. rewrite Z.sub_diag. reflexivity.
Qed.

Lemma no_gt_positive thr :
  positive_finite thr = true ->
  gt (S754_zero false) thr = false /\ gt NaN thr = false.
Proof. destruct thr as [s|s| |[|] m e]; try discriminate. intros _. split; reflexivity. Qed.

Lemma pixel_changed_identical thr d i :
  positive_finite thr = true -> pixel_changed thr d d i = false.
Proof.
  intros Hthr. unfold pixel_changed, diff.
  destruct (no_gt_positive thr Hthr) as [H0 Hn].
  destruct (abs_sub_self (avg d i)) as [-> | ->]; assumption.
Qed.

Lemma scan_none thr lastData currentData :
  (forall i, pixel_changed thr lastData currentData i = false) ->
  forall fuel i c, scan fuel thr lastData currentData i c = c.
Proof.
  intros Hnone. induction fuel as [|fuel IH]; intros i c; [reflexivity|].
  rewrite scan_unfold. destruct (i <? length currentData)%nat; [|reflexivity].
  rewrite Hnone. apply IH.
Qed.

Lemma thresholds_descend : forallb threshold_ok sensitivities = true.
Proof. vm_compute. reflexivity. Qed.

Lemma threshold_facts s1 :
  1 <= s1 <= 100 ->
  positive_finite (pixelDiffThreshold (of_Z s1)) = true /\
  num_le (of_Z 5) (pixelDiffThreshold (of_Z s1)) = true /\
  num_le (pixelDiffThreshold (of_Z s1)) (of_Z 50) = true /\
  forall s2, s1 <= s2 <= 100 ->
    num_le (pixelDiffThreshold (of_Z s2)) (pixelDiffThreshold (of_Z s1)) = true.
Proof.
  intros H1.
  pose proof (proj1 (forallb_forall _ _) thresholds_descend s1 (in_sensitivities s1 H1)) as H.
  unfold threshold_ok in H.
  apply andb_prop in H as [H Hall]. apply andb_prop in H as [H H50].
  apply andb_prop in H as [Hpos H5].
  repeat split; try assumption.
  intros s2 H2.
  pose proof (proj1 (forallb_forall _ _) Hall s2 (in_sensitivities s2 ltac:(lia))) as H'.
  unfold threshold_pair in H'. destruct (Z.leb_spec s1 s2); [exact H'|lia].
Qed.

Lemma motionPixelThreshold_below w h :
  0 < w -> 0 < h -> w * h < 2 ^ 53 ->
  exists E M, below E M (motionPixelThreshold w h).
Proof.
  intros Hw Hh Hp.
  assert (Hw53 : 0 < w < 2 ^ 53) by nia.
  assert (Hh53 : 0 < h < 2 ^ 53) by nia.
  pose proof (below_of_Z w Hw53) as Bw. pose proof (below_of_Z h Hh53) as Bh.
  set (dw := Zdigits2 w) in *. set (dh := Zdigits2 h) in *.
  assert (Hdp : dw + dh <= Zdigits2 (w * h) + 1) by (apply Zdigits2_mul_low; lia).
  assert (Hdp53 : Zdigits2 (w * h) <= 53).
  { rewrite Zdigits2_log2 by nia.
    pose proof (proj1 (Z.log2_lt_pow2 (w * h) 53 ltac:(nia)) Hp). lia. }
  assert (Hdw : 1 <= dw) by (apply Zdigits2_pos; lia).
  assert (Hdh : 1 <= dh) by (apply Zdigits2_pos; lia).
  pose proof (mul_below _ _ _ _ _ _ Bw Bh) as BP.
  match type of BP with ?A -> _ => assert (HA : A) by (unfold fexp, emin, prec, emax; lia) end.
  specialize (BP HA). clear HA.
  unfold motionPixelThreshold. change (of_Z (Z.of_nat resolution)) with (of_Z 4).
  rewrite of_Z_4, lit_0_001_eq.
  pose proof (div_below _ _ _ 4503599627370496 (-50) BP) as BX. cbv zeta in BX.
  change (Zdigits2 (Zpos 4503599627370496)) with 53 in BX.
  match type of BX with ?A -> _ => assert (HA : A) by (unfold fexp, emin, prec, emax; lia) end.
  specialize (BX HA). clear HA.
  assert (Bc : below (-62) (-9) (S754_finite false 4611686018427388 (-62))).
  { right. eexists _, _. split; [reflexivity|].
    change (Zdigits2 (Zpos 4611686018427388)) with 53. lia. }
  pose proof (mul_below _ _ _ _ _ _ BX Bc) as BT.
  match type of BT with ?A -> _ => assert (HA : A) by (unfold fexp, emin, prec, emax; lia) end.
  specialize (BT HA). eexists _, _. exact BT.
Qed.

Lemma no_motion_without_change w h :
  0 < w -> 0 < h -> w * h < 2 ^ 53 -> motion_present 0 w h = false.
Proof.
  intros Hw Hh Hp. unfold motion_present.
  destruct (motionPixelThreshold_below w h Hw Hh Hp) as (E & M & [-> | (m & e & -> & _)]);
    reflexivity.
Qed.

(** X2: two identical buffers give a count of zero at every sensitivity in
    [1,100], whatever the bytes are; the tick is not classified "motion
    present" and leaves the call log, the motion state and the timer as
    they were. *)
Theorem identical_frames_no_motion w f last s :
  lastImageDataRef (hook w) = Some last ->
  data last = pixels f ->
  sensitivityRef (hook w) = of_Z s -> 1 <= s <= 100 ->
  0 < videoWidth f -> 0 < videoHeight f -> videoWidth f * videoHeight f < 2 ^ 53 ->
  countChangedPixels (pixelDiffThreshold (of_Z s)) (data last) (pixels f) = 0%nat /\
  motion_tick w f = false /\
  forall id w',
    step (AnimationFrame id f) w = Some w' ->
    calls (browser w') = calls (browser w) /\
    isDetectingMotionRef (hook w') = isDetectingMotionRef (hook w) /\
    timers (browser w') = timers (browser w).
Proof.
  intros Hlast Hsame Hsens Hs Hw Hh Hp.
  destruct (threshold_facts s Hs) as (Hpos & _).
  assert (Hc : countChangedPixels (pixelDiffThreshold (of_Z s)) (data last) (pixels f) = 0%nat).
  { unfold countChangedPixels. apply scan_none. intros i. rewrite Hsame.
    apply pixel_changed_identical. exact Hpos. }
  assert (Hm : motion_tick w f = false).
  { unfold motion_tick. rewrite Hlast. unfold classify. rewrite Hsens, Hc.
    rewrite no_motion_without_change by assumption. apply andb_false_r. }
  split; [exact Hc|]. split; [exact Hm|].
  intros id w' Hstep. apply step_tick in Hstep. subst w'.
  destruct (detectMotionLoop_still f (on_browser (cancelAnimationFrame id) w) Hm)
    as [-> | ->]; repeat split; reflexivity.
Qed.

Lemma identical_frames_no_motion_witness :
  countChangedPixels (pixelDiffThreshold (of_Z 50)) (pixels black_2x2) (pixels black_2x2)
  = 0%nat /\
  motion_tick watching black_2x2 = false.
Proof.
  assert (H1 : lastImageDataRef (hook watching) = Some (getImageData black_2x2))
    by (vm_compute; reflexivity).
  assert (H2 : sensitivityRef (hook watching) = of_Z 50) by (vm_compute; reflexivity).
  destruct (identical_frames_no_motion watching black_2x2 (getImageData black_2x2) 50
              H1 eq_refl H2 ltac:(lia) eq_refl eq_refl eq_refl) as (A & B & _).
  exact (conj A B).
Defined.

(* ------------------------------------------------------------------ *)
(** ** What the estimator looks at *)

Lemma avg_ext arr arr' i :
  (forall c, (c < 3)%nat -> nth_error arr (i + c) = nth_error arr' (i + c)) ->
  avg arr i = avg arr' i.
Proof.
  intros H. unfold avg, read.
  pose proof (H 0%nat ltac:(lia)) as H0. rewrite Nat.add_0_r in H0.
  rewrite H0, (H 1%nat ltac:(lia)), (H 2%nat ltac:(lia)). reflexivity.
Qed.

Lemma scan_ext thr lastData currentData lastData' currentData' :
  length currentData = length currentData' ->
  (forall k, (16 * k < length currentData)%nat ->
     pixel_changed thr lastData currentData (16 * k)
     = pixel_changed thr lastData' currentData' (16 * k)) ->
  forall fuel k c,
    scan fuel thr lastData currentData (16 * k) c
    = scan fuel thr lastData' currentData' (16 * k) c.
Proof.
  intros Hlen Hsame. induction fuel as [|fuel IH]; intros k c; [reflexivity|].
  rewrite !scan_unfold, <- Hlen.
  destruct (Nat.ltb_spec (16 * k) (length currentData)) as [Hlt|Hge]; [|reflexivity].
  rewrite (Hsame k Hlt).
  replace (16 * k + 16)%nat with (16 * S k)%nat by lia. apply IH.
Qed.

(** X3: the count depends only on the length of the current buffer and on
    the red, green and blue bytes of every fourth pixel of the two buffers:
    the alpha bytes and the three pixels in between are never looked at. *)
Theorem count_depends_on_sampled_rgb thr lastData currentData lastData' currentData' :
  length currentData = length currentData' ->
  (forall k c, (16 * k < length currentData)%nat -> (c < 3)%nat ->
     nth_error lastData (16 * k + c) = nth_error lastData' (16 * k + c) /\
     nth_error currentData (16 * k + c) = nth_error currentData' (16 * k + c)) ->
  countChangedPixels thr lastData currentData
  = countChangedPixels thr lastData' currentData'.
Proof.
  intros Hlen Hsame. unfold countChangedPixels. rewrite <- Hlen.
  change 0%nat with (16 * 0)%nat at 1 3.
  apply scan_ext; [exact Hlen|].
  intros k Hk. unfold pixel_changed, diff.
  rewrite (avg_ext lastData lastData' (16 * k)), (avg_ext currentData currentData' (16 * k));
    [reflexivity| |]; intros c Hc; apply (Hsame k c Hk Hc).
Qed.

Lemma count_depends_on_sampled_rgb_witness :
  countChangedPixels (pixelDiffThreshold (of_Z 50))
    [0; 0; 0; 255; 0; 0; 0; 255] [255; 255; 255; 255; 0; 0; 0; 255]
  = countChangedPixels (pixelDiffThreshold (of_Z 50))
    [0; 0; 0; 0; 9; 9; 9; 9] [255; 255; 255; 7; 200; 200; 200; 200].
Proof.
  apply count_depends_on_sampled_rgb; [reflexivity|].
  intros k c Hk Hc. cbn [length] in Hk.
  assert (k = 0)%nat by lia. subst k.
  destruct c as [|[|[|c]]]; [split; reflexivity..|lia].
Defined.

(* ------------------------------------------------------------------ *)
(** ** Sensitivity *)

Lemma gt_le_trans d t1 t2 :
  positive_finite t1 = true -> positive_finite t2 = true ->
  num_le t2 t1 = true -> gt d t1 = true -> gt d t2 = true.
Proof.
  destruct t1 as [s|s| |[|] m1 e1]; try discriminate.
  destruct t2 as [s|s| |[|] m2 e2]; try discriminate.
  intros _ _. unfold num_le, gt, SFleb, SFltb, SFcompare.
  destruct d as [s|[|]| |[|] md ed]; try discriminate; try reflexivity.
  change (Pos.compare_cont Eq m2 m1) with (Pos.compare m2 m1).
  change (Pos.compare_cont Eq m1 md) with (Pos.compare m1 md).
  change (Pos.compare_cont Eq m2 md) with (Pos.compare m2 md).
  destruct (Z.compare_spec e2 e1), (Z.compare_spec e1 ed), (Z.compare_spec e2 ed);
    try lia; try discriminate; try reflexivity;
    destruct (Pos.compare_spec m2 m1), (Pos.compare_spec m1 md), (Pos.compare_spec m2 md);
    try lia; try discriminate; try reflexivity.
Qed.

Lemma scan_mono thr1 thr2 lastData currentData :
  (forall i, pixel_changed thr1 lastData currentData i = true ->
             pixel_changed thr2 lastData currentData i = true) ->
  forall fuel i c1 c2, (c1 <= c2)%nat ->
    (scan fuel thr1 lastData currentData i c1
     <= scan fuel thr2 lastData currentData i c2)%nat.
Proof.
  intros Himp. induction fuel as [|fuel IH]; intros i c1 c2 Hc; [exact Hc|].
  rewrite !scan_unfold. destruct (i <? length currentData)%nat; [|exact Hc].
  apply IH. specialize (Himp i).
  destruct (pixel_changed thr1 lastData currentData i).
  - rewrite Himp by reflexivity. lia.
  - destruct (pixel_changed thr2 lastData currentData i); lia.
Qed.

(** X4: over the sensitivities 1..100 the threshold stays between 5 and 50
    and never increases with the sensitivity, and a higher sensitivity
    never counts fewer changed pixels on the same pair of buffers. *)
Theorem higher_sensitivity_counts_more s1 s2 lastData currentData :
  1 <= s1 -> s1 <= s2 -> s2 <= 100 ->
  num_le (of_Z 5) (pixelDiffThreshold (of_Z s1)) = true /\
  num_le (pixelDiffThreshold (of_Z s1)) (of_Z 50) = true /\
  num_le (pixelDiffThreshold (of_Z s2)) (pixelDiffThreshold (of_Z s1)) = true /\
  (countChangedPixels (pixelDiffThreshold (of_Z s1)) lastData currentData
   <= countChangedPixels (pixelDiffThreshold (of_Z s2)) lastData currentData)%nat.
Proof.
  intros H1 H12 H2.
  destruct (threshold_facts s1 ltac:(lia)) as (Hp1 & H5 & H50 & Hle).
  destruct (threshold_facts s2 ltac:(lia)) as (Hp2 & _).
  specialize (Hle s2 ltac:(lia)).
  repeat split; try assumption.
  unfold countChangedPixels. apply scan_mono; [|lia].
  intros i. unfold pixel_changed. apply gt_le_trans; assumption.
Qed.

Lemma higher_sensitivity_counts_more_witness :
  (countChangedPixels (pixelDiffThreshold (of_Z 1)) [0; 0; 0; 255]%Z [30; 30; 30; 255]%Z
   <= countChangedPixels (pixelDiffThreshold (of_Z 100))
                         [0; 0; 0; 255]%Z [30; 30; 30; 255]%Z)%nat.
Proof.
  apply (higher_sensitivity_counts_more 1 100); lia.
Defined.

(* ------------------------------------------------------------------ *)
(** ** The timer and the callbacks over whole runs *)

(** X5: in every state the hook can reach, at most one timer is pending;
    it runs for 1000 ms and is the one [motionTimeoutRef] names; and the
    state is Active exactly when a timer is pending. *)
Theorem reachable_timer_discipline s es w :
  exec es (initial s) = Some w ->
  (isDetectingMotionRef (hook w) = true <-> timers (browser w) <> []) /\
  (length (timers (browser w)) <= 1)%nat /\
  (forall t, In t (timers (browser w)) ->
             delay t = 1000 /\ motionTimeoutRef (hook w) = Some (tid t)).
Proof.
  intros Hex.
  assert (HI : Inv w) by (eapply exec_Inv; [apply Inv_initial|exact Hex]).
  assert (HB : Balanced 0 w)
    by (eapply Balanced_exec; [apply Inv_initial|apply Balanced_initial|exact Hex]).
  destruct HI as (_ & Ht & Hd & _). destruct HB as (Hb & _).
  split; [split; assumption|].
  destruct Ht as [E|(t & E & Href & _ & _ & Hdel)]; rewrite E.
  - split; [cbn; lia|]. intros t [].
  - split; [cbn; lia|]. intros t' [<-|[]]. auto.
Qed.

Lemma reachable_timer_discipline_witness :
  (isDetectingMotionRef (hook active) = true <-> timers (browser active) <> []) /\
  (length (timers (browser active)) <= 1)%nat.
Proof.
  assert (Hx : exec (start_up ++ [AnimationFrame 5 black_2x2; AnimationFrame 6 white_2x2])
                    (initial (of_Z 50)) = Some active) by (vm_compute; reflexivity).
  destruct (reachable_timer_discipline _ _ _ Hx) as (H1 & H2 & _).
  exact (conj H1 H2).
Defined.

Lemma surplus_frame w w' :
  isDetectingMotionRef (hook w') = isDetectingMotionRef (hook w) ->
  calls (browser w') = calls (browser w) ->
  surplus w' = surplus w.
Proof. intros E1 E2. unfold surplus, starts, ends. rewrite E1, E2. reflexivity. Qed.

Lemma surplus_error err w : surplus (setup_catch err w) = surplus w.
Proof.
  unfold surplus, starts, ends. rewrite setup_catch_hook, setup_catch_browser.
  cbn [calls set_calls]. rewrite !filter_app, !length_app.
  destruct (is_abort err); cbn; lia.
Qed.

Lemma surplus_detectMotionLoop f w : surplus (detectMotionLoop f w) = surplus w.
Proof.
  destruct (detectMotionLoop_shape f w) as [->|[->|[_ ->]]].
  - apply surplus_frame; reflexivity.
  - apply surplus_frame; reflexivity.
  - unfold surplus, starts, ends. rewrite reschedule_browser, reschedule_hook.
    cbn [calls set_fresh set_animationFrames isDetectingMotionRef set_requestRef].
    rewrite onMotion_active, onMotion_calls.
    change (isDetectingMotionRef (hook (store f w))) with (isDetectingMotionRef (hook w)).
    change (calls (browser (store f w))) with (calls (browser w)).
    destruct (isDetectingMotionRef (hook w)); [reflexivity|].
    rewrite !filter_app, !length_app. cbn. lia.
Qed.

Lemma surplus_step ev w w' :
  Balanced 0 w -> running_event ev = true -> step ev w = Some w' ->
  surplus w' = surplus w.
Proof.
  intros HB Hev. destruct ev as [dt|id f|id|k r|k r| | |s]; cbn [step running_event] in *;
    try discriminate.
  - destruct (0 <=? dt); [|discriminate]. intros [= <-]. apply surplus_frame; reflexivity.
  - destruct (existsb _ _); [|discriminate]. intros [= <-].
    rewrite surplus_detectMotionLoop. apply surplus_frame; reflexivity.
  - destruct (due id (browser w)) eqn:Hdue; [|discriminate]. intros [= <-].
    apply due_in in Hdue as (t & Hin & _).
    destruct HB as (H1 & _).
    assert (Hact : isDetectingMotionRef (hook w) = true).
    { apply H1. intros E. rewrite E in Hin. destruct Hin. }
    unfold surplus, starts, ends. cbn. rewrite Hact.
    rewrite !filter_app, !length_app. cbn. lia.
  - destruct (is_suspended k AwaitGetUserMedia (browser w)); [|discriminate].
    destruct r as [err|]; intros [= <-].
    + rewrite surplus_error. apply surplus_frame; reflexivity.
    + apply surplus_frame; reflexivity.
  - destruct (is_suspended k AwaitPlay (browser w)); [|discriminate].
    destruct r as [err|]; intros [= <-].
    + rewrite surplus_error. apply surplus_frame; reflexivity.
    + apply surplus_frame; reflexivity.
  - intros [= <-]. apply surplus_frame; reflexivity.
Qed.

Lemma surplus_exec es : forall w w',
  Inv w -> Balanced 0 w -> forallb running_event es = true ->
  exec es w = Some w' -> surplus w' = surplus w.
Proof.
  induction es as [|ev es IH]; intros w w' HI HB Hev; cbn [exec].
  - intros [= <-]. reflexivity.
  - cbn [forallb] in Hev. apply andb_prop in Hev as [H1 H2].
    destruct (step ev w) as [w1|] eqn:E; [|discriminate]. intros Hex.
    rewrite (IH w1 w'); [apply (surplus_step ev w w1 HB H1 E)| | | |exact Hex].
    + eapply step_Inv; eassumption.
    + eapply Balanced_step; eassumption.
    + exact H2.
Qed.

(** X6: along any run in which the hook is neither enabled again nor
    disabled, the motion callbacks alternate: the difference between the
    motion-start and the motion-end calls grows by exactly one while the
    state goes from Idle to Active and shrinks by one when it goes back,
    so that the starts minus the ends minus [1 if Active] stays what it
    was. *)
Theorem motion_calls_alternate s es0 w es w' :
  exec es0 (initial s) = Some w ->
  forallb running_event es = true ->
  exec es w = Some w' ->
  Z.of_nat (starts w') - Z.of_nat (ends w')
  - (if isDetectingMotionRef (hook w') then 1 else 0)
  = Z.of_nat (starts w) - Z.of_nat (ends w)
    - (if isDetectingMotionRef (hook w) then 1 else 0).
Proof.
  intros Hex0 Hev Hex.
  apply (surplus_exec es w w'); try assumption.
  - eapply exec_Inv; [apply Inv_initial|exact Hex0].
  - eapply Balanced_exec; [apply Inv_initial|apply Balanced_initial|exact Hex0].
Qed.

Lemma motion_calls_alternate_witness :
  Z.of_nat (starts idle_again) - Z.of_nat (ends idle_again)
  - (if isDetectingMotionRef (hook idle_again) then 1 else 0)
  = Z.of_nat (starts started) - Z.of_nat (ends started)
    - (if isDetectingMotionRef (hook started) then 1 else 0).
Proof.
  assert (H0 : exec start_up (initial (of_Z 50)) = Some started)
    by (vm_compute; reflexivity).
  assert (H1 : exec ([AnimationFrame 5 black_2x2; AnimationFrame 6 white_2x2]
                     ++ quiet_second ++ [Timeout 7]) started = Some idle_again)
    by (vm_compute; reflexivity).
  exact (motion_calls_alternate (of_Z 50) start_up started
           ([AnimationFrame 5 black_2x2; AnimationFrame 6 white_2x2]
            ++ quiet_second ++ [Timeout 7]) idle_again H0 eq_refl H1).
Defined.

(** X7: in Active there is one pending timer; no timer expiry can happen
    before 1000 ms have passed since it was set, and from then on its
    expiry is possible and makes the state Idle, with no timer left and
    the motion-end callback invoked once. *)
Theorem silence_timer_fires w :
  Inv w -> isDetectingMotionRef (hook w) = true ->
  exists t,
    timers (browser w) = [t] /\
    (now (browser w) < set_at t + 1000 -> forall id, step (Timeout id) w = None) /\
    (set_at t + 1000 <= now (browser w) ->
     exists w', step (Timeout (tid t)) w = Some w' /\
                isDetectingMotionRef (hook w') = false /\
                timers (browser w') = [] /\
                calls (browser w') = calls (browser w) ++ [OnMotionEnd]).
Proof.
  intros (_ & Ht & Hd & _) Hact.
  destruct Ht as [E|(t & E & _ & _ & _ & Hdel)]; [destruct (Hd Hact E)|].
  exists t. split; [exact E|]. split.
  - intros Hlt id. cbn [step]. unfold due. rewrite E. cbn. rewrite Hdel.
    destruct (Z.leb_spec (set_at t + 1000) (now (browser w))); [lia|].
    rewrite andb_false_r. reflexivity.
  - intros Hle. cbn [step]. unfold due. rewrite E. cbn. rewrite Hdel, Nat.eqb_refl.
    destruct (Z.leb_spec (set_at t + 1000) (now (browser w))); [|lia].
    cbn. eexists. split; [reflexivity|]. cbn. rewrite E. cbn. rewrite Nat.eqb_refl.
    repeat split; reflexivity.
Qed.

Lemma silence_timer_fires_witness :
  exists t,
    timers (browser silent) = [t] /\
    (set_at t + 1000 <= now (browser silent) ->
     exists w', step (Timeout (tid t)) silent = Some w' /\
                isDetectingMotionRef (hook w') = false /\
                timers (browser w') = [] /\
                calls (browser w') = calls (browser silent) ++ [OnMotionEnd]).
Proof.
  assert (Ha : isDetectingMotionRef (hook silent) = true) by (vm_compute; reflexivity).
  destruct (silence_timer_fires silent (Inv_after _) Ha) as (t & H1 & _ & H3).
  exists t. exact (conj H1 H3).
Defined.

(* ------------------------------------------------------------------ *)
(** ** The effect, and enabling from rest *)

Lemma cleanup_twice w : cleanup (cleanup w) = cleanup w.
Proof.
  rewrite (cleanup_eq (cleanup w)). rewrite (cleanup_eq w). cbn.
  destruct (motionTimeoutRef (hook w)) as [[|n]|]; reflexivity.
Qed.

(** X8: when [enabled] changes, React runs the returned [cleanup] and then
    the effect; that amounts to one [setup] when the flag is true and to
    one [cleanup] when it is false, and the [cleanup] at unmount after a
    disable changes nothing more. *)
Theorem effect_rerun w :
  rerender true w = setup w /\
  rerender false w = cleanup w /\
  cleanup (rerender false w) = rerender false w /\
  rerender true (rerender false w) = setup w.
Proof.
  assert (H1 : rerender true w = setup w).
  { unfold rerender, effect, setup. rewrite cleanup_twice. reflexivity. }
  assert (H2 : rerender false w = cleanup w).
  { unfold rerender, effect. apply cleanup_twice. }
  split; [exact H1|]. split; [exact H2|]. split.
  - rewrite H2. apply cleanup_twice.
  - rewrite H2. unfold rerender, effect, setup. rewrite !cleanup_twice. reflexivity.
Qed.

Lemma setup_Acquiring_clean w :
  Inv w -> Clean w -> Acquiring 0 (setup w).
Proof.
  intros HI ((Hsus & Hraf) & Hlive).
  pose proof (cleanup_Dead w HI (conj Hsus Hraf)) as (D1 & D2 & D3).
  destruct HI as (Hf & _).
  assert (Hl : liveStreams (browser (cleanup w)) = []).
  { rewrite cleanup_eq. cbn. destruct (streamRef (hook w)) as [s|] eqn:E.
    - apply without_all. intros x Hx. specialize (Hlive x Hx). congruence.
    - destruct (liveStreams (browser w)) as [|x l]; [reflexivity|].
      specialize (Hlive x (or_introl eq_refl)). discriminate. }
  assert (Hr : streamRef (hook (cleanup w)) = None) by (rewrite cleanup_eq; reflexivity).
  assert (Hfr : fresh (browser (cleanup w)) = fresh (browser w))
    by (rewrite cleanup_eq; reflexivity).
  unfold Acquiring, setup.
  cbn [on_browser browser hook fresh suspended liveStreams animationFrames timers
       set_fresh set_suspended].
  rewrite D1, D2, D3, Hl, Hr, Hfr. repeat split; auto; try lia.
  eexists; reflexivity.
Qed.

(** X10: from a state at rest, whether never enabled, disabled
    or left by a failed attempt, [setup] followed by any run in which the
    camera is granted and playback starts ends in a running engine: one
    live stream that the hook holds and exposes, one pending tick request. *)
Theorem enable_from_rest_runs w es w2 :
  Inv w -> Clean w ->
  forallb smooth es = true ->
  exec es (setup w) = Some w2 ->
  suspended (browser w2) = [] ->
  Running w2.
Proof.
  intros HI HC Hsm Hex Hdone.
  pose proof (setup_Acquiring_clean w HI HC) as HA.
  destruct (phase_exec 0 es (setup w) w2 Hsm (or_introl HA) Hex)
    as [(_ & (k & E) & _)|[((k & E) & _)|(HR & _)]];
    try (rewrite E in Hdone; discriminate).
  exact HR.
Qed.

Lemma enable_from_rest_runs_witness :
  exists w2,
    exec [Elapse 20; GetUserMediaSettled 2 None; PlaySettled 2 None] (setup failed)
    = Some w2 /\ Running w2.
Proof.
  assert (Hs : suspended (browser failed) = []) by (vm_compute; reflexivity).
  assert (Hf : animationFrames (browser failed) = []) by (vm_compute; reflexivity).
  assert (Hl : liveStreams (browser failed) = []) by (vm_compute; reflexivity).
  assert (HC : Clean failed).
  { split; [split; [exact Hs|]|]; intros x Hx; [rewrite Hf in Hx|rewrite Hl in Hx];
      destruct Hx. }
  eexists. split; [vm_compute; reflexivity|].
  eapply (enable_from_rest_runs failed
            [Elapse 20; GetUserMediaSettled 2 None; PlaySettled 2 None] _
            (Inv_after _) HC eq_refl);
    vm_compute; reflexivity.
Defined.

(** X9: when playback is refused after the camera was granted, the error
    is reported once (not at all for an AbortError), no tick loop starts
    and nothing is left pending; but the stream stays open, held by the
    hook and exposed as [stream], until [cleanup] stops it. *)
Theorem play_failure_keeps_stream s0 w k err w' :
  Starting s0 w ->
  step (PlaySettled k (Some err)) w = Some w' ->
  (exists s, streamRef (hook w') = Some s /\ stream (hook w') = Some s /\
             liveStreams (browser w') = [s] /\
             liveStreams (browser (cleanup w')) = []) /\
  Dead w' /\
  calls (browser w') =
    calls (browser w) ++ (if is_abort err then [] else [OnError (reported err)]).
Proof.
  intros ((k0 & Hsus) & Hf & Ht & s & _ & H1 & H2 & H3) Hstep.
  cbn [step] in Hstep.
  destruct (is_suspended k AwaitPlay (browser w)) eqn:E; [|discriminate].
  destruct (is_suspended_single _ _ _ _ _ Hsus E) as [-> _].
  injection Hstep as <-.
  rewrite setup_catch_hook, setup_catch_browser.
  cbn [on_browser hook browser resume liveStreams calls set_calls set_suspended].
  split; [|split].
  - exists s. split; [exact H1|]. split; [exact H2|]. split; [exact H3|].
    rewrite cleanup_eq. rewrite setup_catch_hook, setup_catch_browser.
    cbn [browser hook on_browser resume liveStreams set_calls set_suspended].
    rewrite H1, H3. apply without_single.
  - unfold Dead. rewrite setup_catch_browser.
    cbn [on_browser browser resume animationFrames timers suspended set_calls
         set_suspended].
    rewrite Hf, Ht, Hsus. cbn. rewrite Nat.eqb_refl. auto.
  - reflexivity.
Qed.

Lemma play_failure_keeps_stream_witness :
  exists w',
    step (PlaySettled 1 (Some refused)) starting = Some w' /\
    liveStreams (browser w') = [2%nat] /\
    liveStreams (browser (cleanup w')) = [] /\
    animationFrames (browser w') = [] /\
    calls (browser w') = [OnError refused].
Proof.
  assert (HS : Starting 0 starting).
  { split; [exists 1%nat; vm_compute; reflexivity|].
    split; [vm_compute; reflexivity|]. split; [vm_compute; reflexivity|].
    exists 2%nat. split; [discriminate|].
    split; [vm_compute; reflexivity|]. split; vm_compute; reflexivity. }
  assert (Hx : step (PlaySettled 1 (Some refused)) starting
               = Some (setup_catch refused (on_browser (resume 1) starting)))
    by (vm_compute; reflexivity).
  eexists. split; [exact Hx|].
  destruct (play_failure_keeps_stream 0 starting 1 refused _ HS Hx)
    as ((s & _ & _ & _ & A4) & (B1 & _) & C).
  split; [vm_compute; reflexivity|]. split; [exact A4|]. split; [exact B1|].
  rewrite C. vm_compute. reflexivity.
Defined.

(* ------------------------------------------------------------------ *)
(** ** The application state *)

Lemma deliver_all_app cs1 cs2 a :
  deliver_all (cs1 ++ cs2) a = deliver_all cs2 (deliver_all cs1 a).
Proof. unfold deliver_all. apply fold_left_app. Qed.

Lemma deliver_config c a :
  config (deliver c a) = config a /\ objectUrls (deliver c a) = objectUrls a /\
  nextUrl (deliver c a) = nextUrl a.
Proof. destruct c; repeat split; reflexivity. Qed.

(** What one event of the running engine tells the application. *)
Lemma running_step_mirror ev w w' :
  running_event ev = true -> step ev w = Some w' ->
  exists new,
    calls (browser w') = calls (browser w) ++ new /\
    forall a, isMotionActive a = isDetectingMotionRef (hook w) ->
              isMotionActive (deliver_all new a) = isDetectingMotionRef (hook w').
Proof.
  intros Hev. destruct ev as [dt|id f|id|k r|k r| | |s]; cbn [step running_event] in *;
    try discriminate.
  - destruct (0 <=? dt); [|discriminate]. intros [= <-].
    exists []. rewrite app_nil_r. split; [reflexivity|]. intros a Ha. exact Ha.
  - destruct (existsb _ _); [|discriminate]. intros [= <-].
    set (w0 := on_browser (cancelAnimationFrame id) w).
    destruct (detectMotionLoop_shape f w0) as [->|[->|[_ ->]]].
    + exists []. rewrite app_nil_r. split; [reflexivity|]. intros a Ha. exact Ha.
    + exists []. rewrite app_nil_r. split; [reflexivity|]. intros a Ha. exact Ha.
    + rewrite reschedule_browser, reschedule_hook.
      cbn [calls set_fresh set_animationFrames isDetectingMotionRef set_requestRef].
      rewrite onMotion_calls, onMotion_active.
      change (isDetectingMotionRef (hook (store f w0))) with (isDetectingMotionRef (hook w)).
      change (calls (browser (store f w0))) with (calls (browser w)).
      destruct (isDetectingMotionRef (hook w)).
      * exists []. rewrite app_nil_r. split; [reflexivity|]. intros a Ha. exact Ha.
      * exists [OnMotionStart]. split; [reflexivity|]. intros a _. reflexivity.
  - destruct (due id (browser w)); [|discriminate]. intros [= <-].
    exists [OnMotionEnd]. split; [reflexivity|]. intros a _. reflexivity.
  - destruct (is_suspended k AwaitGetUserMedia (browser w)); [|discriminate].
    destruct r as [err|]; intros [= <-].
    + rewrite setup_catch_browser, setup_catch_hook. cbn [calls set_calls].
      eexists. split; [reflexivity|]. intros a Ha.
      destruct (is_abort err); exact Ha.
    + exists []. rewrite app_nil_r. split; [reflexivity|]. intros a Ha. exact Ha.
  - destruct (is_suspended k AwaitPlay (browser w)); [|discriminate].
    destruct r as [err|]; intros [= <-].
    + rewrite setup_catch_browser, setup_catch_hook. cbn [calls set_calls].
      eexists. split; [reflexivity|]. intros a Ha.
      destruct (is_abort err); exact Ha.
    + exists []. rewrite app_nil_r. split; [reflexivity|]. intros a Ha. exact Ha.
  - intros [= <-].
    exists []. rewrite app_nil_r. split; [reflexivity|]. intros a Ha. exact Ha.
Qed.

(** X11: along any run in which the hook is neither enabled again nor
    disabled, the application's [isMotionActive], driven by the callbacks
    the run makes, stays equal to the hook's own motion state; the config
    is not touched. *)
Theorem app_mirrors_motion_state es : forall w w' a,
  forallb running_event es = true ->
  exec es w = Some w' ->
  isMotionActive a = isDetectingMotionRef (hook w) ->
  exists new,
    calls (browser w') = calls (browser w) ++ new /\
    isMotionActive (deliver_all new a) = isDetectingMotionRef (hook w') /\
    config (deliver_all new a) = config a.
Proof.
  induction es as [|ev es IH]; intros w w' a Hev; cbn [exec].
  - intros [= <-] Ha. exists []. rewrite app_nil_r. auto.
  - cbn [forallb] in Hev. apply andb_prop in Hev as [H1 H2].
    destruct (step ev w) as [w1|] eqn:E; [|discriminate]. intros Hex Ha.
    destruct (running_step_mirror ev w w1 H1 E) as (n1 & E1 & M1).
    destruct (IH w1 w' (deliver_all n1 a) H2 Hex (M1 a Ha)) as (n2 & E2 & M2 & C2).
    exists (n1 ++ n2). rewrite deliver_all_app. split; [|split].
    + rewrite E2, E1, app_assoc. reflexivity.
    + exact M2.
    + rewrite C2. clear. revert a. induction n1 as [|c n1 IHn]; intros a; [reflexivity|].
      cbn. rewrite IHn. apply deliver_config.
Qed.

Lemma app_mirrors_motion_state_witness :
  exists new,
    calls (browser idle_again) = calls (browser started) ++ new /\
    isMotionActive (deliver_all new initial_app)
    = isDetectingMotionRef (hook idle_again).
Proof.
  assert (H1 : exec ([AnimationFrame 5 black_2x2; AnimationFrame 6 white_2x2]
                     ++ quiet_second ++ [Timeout 7]) started = Some idle_again)
    by (vm_compute; reflexivity).
  assert (H2 : isMotionActive initial_app = isDetectingMotionRef (hook started))
    by (vm_compute; reflexivity).
  destruct (app_mirrors_motion_state
              ([AnimationFrame 5 black_2x2; AnimationFrame 6 white_2x2]
               ++ quiet_second ++ [Timeout 7])
              started idle_again initial_app eq_refl H1 H2)
    as (new & A & B & _).
  exists new. exact (conj A B).
Defined.

Lemma urls_ok_step ev a : urls_ok a -> urls_ok (app_step ev a).
Proof.
  destruct a as [cfg m e urls n]. unfold urls_ok. cbn [objectUrls config nextUrl].
  intros (Hu & Hf). subst urls.
  destruct ev as [file logo s| |c]; cbn [app_step].
  - destruct cfg as [c|].
    + assert (Hlt : (videoObjectUrl c < n)%nat) by (apply Hf; left; reflexivity).
      unfold handleSetupComplete, setConfig, createObjectURL, revoke_config,
        revokeObjectURL, without.
      cbn. rewrite Nat.eqb_refl. cbn.
      destruct (Nat.eqb_spec n (videoObjectUrl c)); [lia|]. cbn.
      split; [reflexivity|]. intros u [<-|[]]. lia.
    + cbn. split; [reflexivity|]. intros u [<-|[]]. lia.
  - destruct cfg as [c|].
    + unfold handleRetrySetup, setConfig, revoke_config, revokeObjectURL, without.
      cbn. rewrite Nat.eqb_refl. cbn. split; [reflexivity|]. intros u [].
    + cbn. split; [reflexivity|]. intros u [].
  - destruct (deliver_config c (mkApp cfg m e
                                  match cfg with Some c0 => [videoObjectUrl c0] | None => [] end n))
      as (-> & -> & ->).
    split; [reflexivity|exact Hf].
Qed.

(** X12: whatever sequence of completed setups, retries and callbacks the
    application goes through, the document holds exactly the object URL of
    the current config and none when there is no config: the URL of a
    replaced or dropped config is always revoked, and the new one never
    is.  The hook is enabled exactly while such a URL is held. *)
Theorem object_url_single evs :
  let a := app_run evs initial_app in
  objectUrls a = match config a with
                 | Some c => [videoObjectUrl c]
                 | None => []
                 end /\
  (enabled_prop a = true <-> objectUrls a <> []).
Proof.
  cbv zeta.
  assert (H : forall a, urls_ok a -> urls_ok (app_run evs a)).
  { induction evs as [|ev evs IH]; intros a Ha; [exact Ha|].
    cbn. apply IH. apply urls_ok_step. exact Ha. }
  assert (H0 : urls_ok initial_app) by (split; [reflexivity|intros u []]).
  destruct (H initial_app H0) as (Hu & _). split; [exact Hu|].
  unfold enabled_prop. rewrite Hu.
  destruct (config (app_run evs initial_app)); split; try discriminate; auto;
    intros E; contradiction E; reflexivity.
Qed.

(* ------------------------------------------------------------------ *)
(** ** The setup form *)

Lemma handleSubmit_some fm f l s :
  handleSubmit fm = Some (f, l, s) ->
  videoFile fm = Some f /\ l <> EmptyString /\ l = logoUrlField fm /\
  s = sensitivityField fm.
Proof.
  unfold handleSubmit. destruct (videoFile fm) as [g|]; [|discriminate].
  destruct (logoUrlField fm) as [|c r] eqn:E; [discriminate|].
  intros [= <- <- <-]. repeat split; auto. discriminate.
Qed.

Lemma submissions_sound evs : forall fm f l s,
  In (f, l, s) (submissions evs fm) ->
  l <> EmptyString /\
  (videoFile fm = Some f \/ exists rest, In (FileChange (Some (f :: rest))) evs).
Proof.
  induction evs as [|ev evs IH]; intros fm f l s Hin; [destruct Hin|].
  assert (Hrec : In (f, l, s) (submissions evs (form_step ev fm)) ->
                 l <> EmptyString /\
                 (videoFile fm = Some f \/
                  exists rest, In (FileChange (Some (f :: rest))) (ev :: evs))).
  { intros H. destruct (IH _ _ _ _ H) as (Hl & [Hv | (rest & Hr)]).
    - split; [exact Hl|].
      destruct ev as [[[|g gs]|]| | |]; cbn in Hv; auto.
      injection Hv as ->. right. exists gs. left. reflexivity.
    - split; [exact Hl|]. right. exists rest. right. exact Hr. }
  cbn [submissions] in Hin.
  destruct ev as [files|v|v|]; try (apply Hrec; exact Hin).
  destruct (handleSubmit fm) as [[[g l'] s']|] eqn:E; [|apply Hrec; exact Hin].
  destruct Hin as [[= -> -> ->]|Hin]; [|apply Hrec; exact Hin].
  destruct (handleSubmit_some fm f l s E) as (Hv & Hl & _). auto.
Qed.

Lemma form_keeps_file evs : forall fm,
  videoFile fm <> None -> videoFile (form_run evs fm) <> None.
Proof.
  induction evs as [|ev evs IH]; intros fm H; [exact H|].
  cbn. apply IH. destruct ev as [[[|g gs]|]| | |]; cbn; auto. discriminate.
Qed.

(** X13: whatever the user does with the form, every [onComplete] call it
    makes carries a non-empty logo URL and a file that an earlier file
    choice selected (the first of the chosen files); with no file chosen
    there is no call; and once a file is selected, no later event, an
    emptied file choice included, unselects it. *)
Theorem setup_form_submissions evs f l s :
  In (f, l, s) (submissions evs initial_form) ->
  l <> EmptyString /\
  (exists rest, In (FileChange (Some (f :: rest))) evs) /\
  forall more, videoFile (form_run (evs ++ more) initial_form) <> None.
Proof.
  intros Hin. destruct (submissions_sound evs initial_form f l s Hin) as (Hl & [Hv|Hc]);
    [discriminate|].
  split; [exact Hl|]. split; [exact Hc|].
  intros more. unfold form_run. rewrite fold_left_app. apply form_keeps_file.
  destruct Hc as (rest & Hr). clear Hin Hl.
  assert (G : forall fm, videoFile (form_run evs fm) <> None).
  { induction evs as [|ev evs IH]; [destruct Hr|]. intros fm. cbn.
    destruct Hr as [->|Hr]; [apply form_keeps_file; discriminate|]. apply IH. exact Hr. }
  apply G.
Qed.

Lemma setup_form_submissions_witness :
  let evs := [Submit; FileChange (Some ["idle.mp4"%string]); SensitivityChange (of_Z 80);
              FileChange None; Submit] in
  submissions evs initial_form = [("idle.mp4"%string, default_logo, of_Z 80)] /\
  (exists rest, In (FileChange (Some ("idle.mp4"%string :: rest))) evs).
Proof.
  cbv zeta. split; [vm_compute; reflexivity|].
  assert (Hin : In ("idle.mp4"%string, default_logo, of_Z 80)
                   (submissions [Submit; FileChange (Some ["idle.mp4"%string]);
                                 SensitivityChange (of_Z 80); FileChange None; Submit]
                                initial_form))
    by (left; vm_compute; reflexivity).
  destruct (setup_form_submissions _ _ _ _ Hin) as (_ & H & _). exact H.
Defined.

(* ------------------------------------------------------------------ *)
(** ** The stream the view gets *)

Lemma Exposed_frame w w' :
  Exposed w ->
  stream (hook w') = stream (hook w) ->
  streamRef (hook w') = streamRef (hook w) ->
  liveStreams (browser w') = liveStreams (browser w) ->
  Exposed w'.
Proof. intros (H1 & H2) E1 E2 E3. unfold Exposed. rewrite E1, E2, E3. auto. Qed.

Lemma Exposed_cleanup w : Exposed (cleanup w).
Proof. unfold Exposed. rewrite cleanup_eq. cbn. split; [reflexivity|discriminate]. Qed.

Lemma Exposed_step ev w w' : Exposed w -> step ev w = Some w' -> Exposed w'.
Proof.
  intros HE. destruct ev as [dt|id f|id|k r|k r| | |s]; cbn [step].
  - destruct (0 <=? dt); [|discriminate]. intros [= <-].
    apply (Exposed_frame w); auto.
  - destruct (existsb _ _); [|discriminate]. intros [= <-].
    destruct (tick_session f (on_browser (cancelAnimationFrame id) w))
      as (T1 & T2 & T3 & _).
    apply (Exposed_frame w); auto.
  - destruct (due id (browser w)); [|discriminate]. intros [= <-].
    apply (Exposed_frame w); auto.
  - destruct (is_suspended k AwaitGetUserMedia (browser w)); [|discriminate].
    destruct r as [err|]; intros [= <-].
    + apply (Exposed_frame w); auto; rewrite ?setup_catch_hook, ?setup_catch_browser;
        reflexivity.
    + unfold Exposed. cbn. split; [reflexivity|].
      intros s [= <-]. apply in_or_app. right. left. reflexivity.
  - destruct (is_suspended k AwaitPlay (browser w)); [|discriminate].
    destruct r as [err|]; intros [= <-].
    + apply (Exposed_frame w); auto; rewrite ?setup_catch_hook, ?setup_catch_browser;
        reflexivity.
    + apply (Exposed_frame w); auto.
  - intros [= <-]. apply (Exposed_frame (cleanup w)); auto. apply Exposed_cleanup.
  - intros [= <-]. apply Exposed_cleanup.
  - intros [= <-]. apply (Exposed_frame w); auto.
Qed.

Lemma Exposed_exec es : forall w w', Exposed w -> exec es w = Some w' -> Exposed w'.
Proof.
  induction es as [|ev es IH]; intros w w' HE; cbn [exec].
  - intros [= <-]. exact HE.
  - destruct (step ev w) as [w1|] eqn:E; [|discriminate].
    apply IH. eapply Exposed_step; eassumption.
Qed.

(** X14: in every state the hook can reach, overlapping setups included,
    the [stream] it returns is the stream it holds in [streamRef], and that
    stream's tracks are live; so whenever the application renders the live
    view, it renders a stream that has not been stopped. *)
Theorem exposed_stream_live s es w :
  exec es (initial s) = Some w ->
  stream (hook w) = streamRef (hook w) /\
  (forall st, stream (hook w) = Some st -> In st (liveStreams (browser w))) /\
  (forall a st logo,
      render a (stream (hook w)) = MotionScreen st logo ->
      In st (liveStreams (browser w))).
Proof.
  intros Hex.
  assert (HE : Exposed w).
  { eapply Exposed_exec; [|exact Hex]. split; [reflexivity|discriminate]. }
  destruct HE as (H1 & H2). split; [exact H1|].
  assert (H3 : forall st, stream (hook w) = Some st -> In st (liveStreams (browser w))).
  { intros st Hst. apply H2. rewrite <- H1. exact Hst. }
  split; [exact H3|].
  intros a st logo Hr. apply H3. unfold render in Hr.
  destruct (error a) as [[|c m]|]; try discriminate;
    (destruct (config a) as [cfg|]; [|discriminate]);
    destruct (isMotionActive a); try discriminate;
    (destruct (stream (hook w)) as [st'|]; [|discriminate]);
    injection Hr as -> _; reflexivity.
Qed.

Lemma exposed_stream_live_witness :
  stream (hook haunted) = streamRef (hook haunted) /\
  (forall st, stream (hook haunted) = Some st -> In st (liveStreams (browser haunted))).
Proof.
  assert (Hx : exec ([Enable; Disable] ++ granted_late) (initial (of_Z 50)) = Some haunted)
    by (vm_compute; reflexivity).
  destruct (exposed_stream_live _ _ _ Hx) as (H1 & H2 & _).
  exact (conj H1 H2).
Defined.

(* ------------------------------------------------------------------ *)
(** ** Old and new frame, swapped *)

Lemma abs_binary_round sx m e :
  SFabs (binary_round prec emax sx m e) = SFabs (binary_round prec emax false m e).
Proof.
  unfold binary_round.
  destruct (shl_align m e (fexp prec emax (Zpos (digits2_pos m) + e))) as [mz ez].
  unfold binary_round_aux.
  destruct (shr_fexp prec emax (Zpos mz) ez loc_Exact) as [mrs' e'].
  destruct (shr_fexp prec emax _ e' loc_Exact) as [mrs'' e''].
  destruct (shr_m mrs''); try reflexivity.
  destruct (e'' <=? emax - prec); reflexivity.
Qed.

Lemma abs_binary_normalize_opp m e :
  SFabs (binary_normalize prec emax (- m) e false)
  = SFabs (binary_normalize prec emax m e false).
Proof.
  destruct m as [|p|p]; cbn [Z.opp binary_normalize]; [reflexivity| |].
  - apply abs_binary_round.
  - symmetry. apply abs_binary_round.
Qed.

Lemma abs_sub_comm x y : abs (sub x y) = abs (sub y x).
Proof.
  destruct x as [sx|sx| |sx mx ex], y as [sy|sy| |sy my ey];
    try (destruct sx, sy; reflexivity); try (destruct sx; reflexivity);
    try (destruct sy; reflexivity); try reflexivity.
  unfold abs, sub, SFsub. rewrite (Z.min_comm ey ex).
  rewrite <- abs_binary_normalize_opp. f_equal. f_equal. lia.
Qed.

(** X15: the estimator does not care which of two buffers of the same
    length is the older one: the absolute difference is symmetric also in
    binary64, so swapping the frames gives the same count. *)
Theorem count_symmetric thr a b :
  length a = length b ->
  countChangedPixels thr a b = countChangedPixels thr b a.
Proof.
  intros Hlen. unfold countChangedPixels. rewrite Hlen.
  change 0%nat with (16 * 0)%nat at 1 3.
  apply scan_ext; [symmetry; exact Hlen|].
  intros k _. unfold pixel_changed, diff. rewrite abs_sub_comm. reflexivity.
Qed.

Lemma count_symmetric_witness :
  countChangedPixels (pixelDiffThreshold (of_Z 50)) (pixels black_2x2) (pixels white_2x2)
  = countChangedPixels (pixelDiffThreshold (of_Z 50)) (pixels white_2x2) (pixels black_2x2).
Proof.
  apply count_symmetric. reflexivity.
Defined.
